(** * gmt-python: session bridge and [Figure] front end

    A shallow embedding of [gmt/clib/functions.py] and [gmt/figure.py].

    The Python code talks to two things this layer does not own: the GMT
    shared library (reached through ctypes) and the file system / random
    name generator behind [tempfile].  Both are kept abstract: the native
    entry points are fields of a record [libgmt] whose answers may depend on
    everything that happened before, and the random names come from an
    arbitrary sequence.  Every native call is recorded in a log, so that
    statements such as "fails before any native call" or "the session is
    destroyed on every exit path" can be phrased on that log. *)

From Stdlib Require Import ZArith String Ascii List.
From stdpp Require Import base option list sorting gmap strings pretty.

Local Open Scope string_scope.
Local Open Scope Z_scope.

(** ** Python values, exceptions and strings *)

(** The values that travel through [**kwargs] in this code. *)
Inductive pyval : Type :=
  | PyNone
  | PyBool (b : bool)
  | PyInt (z : Z)
  | PyStr (s : string).

(** The exceptions the modelled code can raise. *)
Inductive exn : Type :=
  | AssertionError (msg : string)
  | TypeError (msg : string)
  | KeyError (key : string)
  | FileExistsError (msg : string)
  | OSError (msg : string).

(** How a call ends. *)
Inductive outcome (A : Type) : Type :=
  | Returns (a : A)
  | Raises (e : exn).
Arguments Returns {A} a.
Arguments Raises {A} e.

Definition returns_normally {A} (o : outcome A) : bool :=
  match o with Returns _ => true | Raises _ => false end.

(** Python [str] is modelled by its UTF-8 bytes, so [str.encode()] is the
    identity. *)
Definition encode (s : string) : string := s.

Definition chars (s : string) : list ascii := list_ascii_of_string s.
Definition str (l : list ascii) : string := string_of_list_ascii l.

(** [s[a:b]] and [s[a:]] for indices [0 <= a]. *)
Definition slice (s : string) (a b : Z) : string :=
  str (take (Z.to_nat b - Z.to_nat a)%nat (drop (Z.to_nat a) (chars s))).
Definition slice_from (s : string) (a : Z) : string :=
  str (drop (Z.to_nat a) (chars s)).
Definition slice_to (s : string) (b : Z) : string :=
  str (take (Z.to_nat b) (chars s)).

(** [s.rfind(c)]: the highest index of [c] in [s], or [-1]. *)
Fixpoint rfind_from (c : ascii) (l : list ascii) (i last : Z) : Z :=
  match l with
  | [] => last
  | x :: l' => rfind_from c l' (i + 1) (if Ascii.eqb x c then i else last)
  end.
Definition rfind (s : string) (c : ascii) : Z := rfind_from c (chars s) 0 (-1).

(** [str.upper()] on ASCII letters. *)
Definition upper_ascii (c : ascii) : ascii :=
  let n := nat_of_ascii c in
  if (97 <=? n)%nat && (n <=? 122)%nat then ascii_of_nat (n - 32) else c.
Definition upper (s : string) : string := str (map upper_ascii (chars s)).

Definition is_upper_ascii (c : ascii) : bool :=
  let n := nat_of_ascii c in (65 <=? n)%nat && (n <=? 90)%nat.

(** ** [os.path] (posixpath) *)

Module os_path.

Definition sep : ascii := "/"%char.
Definition extsep : ascii := "."%char.
Definition curdir : string := ".".

(** The [while] loop of [genericpath._splitext]: [n] is the number of
    indices from [filenameIndex] up to [dotIndex]. *)
Fixpoint _splitext_loop (p : string) (dotIndex : Z) (n : nat)
    (filenameIndex : Z) : option (string * string) :=
  match n with
  | O => None
  | S n' =>
      if negb (String.eqb (slice p filenameIndex (filenameIndex + 1))
                          (String extsep EmptyString))
      then Some (slice_to p dotIndex, slice_from p dotIndex)
      else _splitext_loop p dotIndex n' (filenameIndex + 1)
  end.

Definition _splitext (p : string) (sep : ascii) (altsep : option ascii)
    (extsep : ascii) : string * string :=
  let sepIndex := rfind p sep in
  let sepIndex :=
    match altsep with
    | Some a => Z.max sepIndex (rfind p a)
    | None => sepIndex
    end in
  let dotIndex := rfind p extsep in
  let found :=
    if sepIndex <? dotIndex then
      let filenameIndex := sepIndex + 1 in
      _splitext_loop p dotIndex (Z.to_nat (dotIndex - filenameIndex))
                     filenameIndex
    else None in
  match found with
  | Some r => r
  | None => (p, "")
  end.

Definition splitext (p : string) : string * string :=
  _splitext p sep None extsep.

(** [posixpath.split(p)[-1]]. *)
Definition split_tail (p : string) : string :=
  slice_from p (rfind p sep + 1).

Definition isabs (p : string) : bool :=
  match p with String c _ => Ascii.eqb c sep | EmptyString => false end.

Definition ends_with_sep (p : string) : bool :=
  match last (chars p) with Some c => Ascii.eqb c sep | None => false end.

(** [posixpath.join(a, b)]. *)
Definition join (a b : string) : string :=
  if isabs b then b
  else if String.eqb a "" || ends_with_sep a then a +:+ b
  else a +:+ "/" +:+ b.

(** [s.split('/')]. *)
Fixpoint split_sep (l : list ascii) (cur : list ascii) : list string :=
  match l with
  | [] => [str (rev cur)]
  | c :: l' =>
      if Ascii.eqb c sep then str (rev cur) :: split_sep l' []
      else split_sep l' (c :: cur)
  end.

(** The component loop of [posixpath.normpath]; [new_comps] is kept in
    reverse. *)
Fixpoint normpath_comps (initial_slashes : nat) (comps new_comps : list string)
    : list string :=
  match comps with
  | [] => rev new_comps
  | comp :: comps' =>
      if String.eqb comp "" || String.eqb comp "." then
        normpath_comps initial_slashes comps' new_comps
      else if negb (String.eqb comp "..")
              || (Nat.eqb initial_slashes 0 && bool_decide (new_comps = []))
              || match new_comps with
                 | top :: _ => String.eqb top ".."
                 | [] => false
                 end
      then normpath_comps initial_slashes comps' (comp :: new_comps)
      else normpath_comps initial_slashes comps' (tail new_comps)
  end.

Definition startswith_seps (p : string) (n : nat) : bool :=
  bool_decide (take n (chars p) = replicate n sep).

Definition normpath (path : string) : string :=
  if String.eqb path "" then "."
  else
    let initial_slashes :=
      if startswith_seps path 1 then
        if startswith_seps path 2 && negb (startswith_seps path 3)
        then 2%nat else 1%nat
      else 0%nat in
    let comps := normpath_comps initial_slashes (split_sep (chars path) []) [] in
    let path := String.concat "/" comps in
    let path := str (replicate initial_slashes sep) +:+ path in
    if String.eqb path "" then "." else path.

(** [posixpath.abspath(path)], with [cwd] the value of [os.getcwd()]. *)
Definition abspath (cwd path : string) : string :=
  normpath (if isabs path then path else join cwd path).

End os_path.

(** ** The world outside this layer *)

(** One entry per call into the GMT shared library, in call order.  A
    handle is the integer ctypes makes of a [c_void_p]; a NULL pointer and a
    missing status are [None]. *)
Inductive event : Type :=
  | EvCreateSession (name : string) (pad mode : Z) (print_func : option Z)
                    (ret : option Z)
  | EvCallModule (session : Z) (module : string) (mode : Z) (args : string)
                 (status : option Z)
  | EvDestroySession (session : Z).

Record state : Type := mkState {
  log : list event;        (* native calls made so far *)
  files : gset string;     (* paths that exist on disk *)
  drawn : nat              (* random names consumed from [tempfile] *)
}.

(** The values of [gmt/clib/constants.py], a module that is not embedded
    here, are parameters. *)
Record constants : Type := mkConstants {
  GMT_SESSION_NAME : string;
  GMT_PAD_DEFAULT : Z;
  GMT_SESSION_EXTERNAL : Z;
  GMT_MODULE_CMD : Z
}.

(** The shared library returned by [load_libgmt()].  A module call answers
    with a status and with the files present once it is over; following the
    spec's file boundary, files are written by module calls only, so that
    creating a session answers with a handle and nothing else. *)
Record libgmt : Type := mkLibgmt {
  GMT_Create_Session : state → string → Z → Z → option Z → option Z;
  GMT_Call_Module : state → Z → string → Z → string → option Z * gset string
}.

Abbreviation Kwargs := (gmap string pyval).

(** Everything the code reads from its surroundings. *)
Record env : Type := mkEnv {
  consts : constants;
  load_libgmt : libgmt;
  (* os.getcwd() *)
  getcwd : string;
  (* the sequence behind tempfile._get_candidate_names() *)
  candidate_names : nat → string;
  (* tempfile.TMP_MAX: os.TMP_MAX where the platform has it (238328 on
     Linux), 10000 elsewhere *)
  TMP_MAX : nat;
  (* the error, other than the path existing already, that os.open or
     os.mkdir raises when asked to create a path: PermissionError for a
     directory that cannot be written, FileNotFoundError for one that is
     missing; None when there is none *)
  os_create_error : state → string → option exn;
  (* gmt/decorators.py and gmt/utils.py are not embedded here:
     the keyword translations done by the decorators and the flattening of
     keywords into an argument string are parameters *)
  use_alias : list (string * string) → Kwargs → Kwargs;
  kwargs_to_strings : Kwargs → Kwargs;
  build_arg_string : Kwargs → string
}.

(** ** Computations: state passing with exceptions *)

Definition M (A : Type) : Type := state → outcome A * state.

Definition ret {A} (a : A) : M A := fun s => (Returns a, s).

Definition raise {A} (e : exn) : M A := fun s => (Raises e, s).

Definition bind {A B} (m : M A) (k : A → M B) : M B :=
  fun s =>
    match m s with
    | (Returns a, s') => k a s'
    | (Raises e, s') => (Raises e, s')
    end.

#[global] Instance M_ret : MRet M := @ret.
#[global] Instance M_bind : MBind M := fun A B k m => bind m k.

(** [assert cond, msg]. *)
Definition assert_ (cond : bool) (msg : string) : M unit :=
  if cond then ret tt else raise (AssertionError msg).

(** [try: body finally: final], as run by a [with] block once the context
    has been entered. *)
Definition finally {A} (body : M A) (final : state → state) : M A :=
  fun s => let '(r, s') := body s in (r, final s').

Definition record (e : event) (s : state) : state :=
  mkState (log s ++ [e]) (files s) (drawn s).

Definition set_files (fs : gset string) (s : state) : state :=
  mkState (log s) fs (drawn s).

Definition draw (s : state) : state :=
  mkState (log s) (files s) (S (drawn s)).

(** ** [gmt/clib/functions.py] *)

Section Clib.

Variable E : env.

Definition create_session : M Z := fun s =>
  let libgmt := load_libgmt E in
  let c_create_session := GMT_Create_Session libgmt in
  let session := c_create_session s (GMT_SESSION_NAME (consts E))
                                    (GMT_PAD_DEFAULT (consts E))
                                    (GMT_SESSION_EXTERNAL (consts E))
                                    None in
  let s' := record (EvCreateSession (GMT_SESSION_NAME (consts E))
                                    (GMT_PAD_DEFAULT (consts E))
                                    (GMT_SESSION_EXTERNAL (consts E))
                                    None session) s in
  match session with
  | None =>
      (Raises (AssertionError
                 "Failed creating GMT API pointer using create_session."), s')
  | Some session => (Returns session, s')
  end.

Definition call_module (session : Z) (module args : string) : M unit := fun s =>
  let mode := GMT_MODULE_CMD (consts E) in
  let libgmt := load_libgmt E in
  let c_call_module := GMT_Call_Module libgmt in
  let '(status, fs) := c_call_module s session (encode module) mode (encode args) in
  let s' := set_files fs (record (EvCallModule session (encode module) mode
                                               (encode args) status) s) in
  match status with
  | None => (Raises (AssertionError "Failed returning None."), s')
  | Some code =>
      if code =? 0 then (Returns tt, s')
      else (Raises (AssertionError
                      ("Failed with status code " +:+ pretty code +:+ ".")), s')
  end.

(** Modelled from the spec: the release half of [APISession], the context
    manager of [gmt/clib] (a module that is not embedded here).  The spec
    describes a session as "created, used to issue zero or more module
    invocations, and destroyed exactly once" and names no way for the
    destruction to fail; it is one log entry. *)
Definition destroy_session (session : Z) : state → state :=
  record (EvDestroySession session).

(** Modelled from the spec: [with APISession() as session: body], the
    "scoped session lifetime" of the spec.  Entering the block acquires a
    handle with [create_session] (a failure there is fatal and the block is
    not entered); leaving the block, by normal completion or by an error,
    destroys that handle. *)
Definition with_APISession {A} (body : Z → M A) : M A :=
  session ← create_session;
  finally (body session) (destroy_session session).

End Clib.

(** ** [tempfile.NamedTemporaryFile] *)

Record _TemporaryFileWrapper : Type := mkTemporaryFile {
  tmp_name : string;
  tmp_delete : bool
}.

Section Tempfile.

Variable E : env.

(** [tempfile._mkstemp_inner]: try the next random names until one does
    not exist yet ([os.open] with [O_EXCL]), at most [TMP_MAX] times; any
    other error of [os.open] is raised as it comes.
    Paths in [files] are absolute. *)
Fixpoint _mkstemp_inner (dir pre suf : string) (seq : nat) : M string :=
  match seq with
  | O => raise (FileExistsError "No usable temporary file name found")
  | S seq' => fun s =>
      let name := candidate_names E (drawn s) in
      let s := draw s in
      let file := os_path.abspath (getcwd E) (os_path.join dir (pre +:+ name +:+ suf)) in
      match os_create_error E s file with
      | Some e => (Raises e, s)
      | None =>
          if bool_decide (file ∈ files s) then _mkstemp_inner dir pre suf seq' s
          else (Returns file, set_files ({[file]} ∪ files s) s)
      end
  end.

Definition NamedTemporaryFile (prefix dir : string) (delete : bool)
    : M _TemporaryFileWrapper :=
  name ← _mkstemp_inner dir prefix "" (TMP_MAX E);
  mret (mkTemporaryFile name delete).

(** [tmpfile.close()]: the file is unlinked when it was opened with
    [delete=True]. *)
Definition close (tmpfile : _TemporaryFileWrapper) : M unit := fun s =>
  (Returns tt,
   if tmp_delete tmpfile then set_files (files s ∖ {[tmp_name tmpfile]}) s else s).

End Tempfile.

(** ** Python call conventions *)

(** [d[key]]. *)
Definition getitem {V} (d : gmap string V) (key : string) : M V :=
  match d !! key with
  | Some v => mret v
  | None => raise (KeyError key)
  end.

(** [f(k1=v1, ..., **extra)]: a keyword given twice is a [TypeError] raised
    before [f] runs.  The text of the message is the one of CPython up to
    3.9 for the first explicit keyword that is repeated; later versions
    qualify the name of [f] and name the duplicate in the order of [extra].
    No statement below depends on the text. *)
Fixpoint call_kwargs (f : string) (explicit : list (string * pyval))
    (extra : Kwargs) : M Kwargs :=
  match explicit with
  | [] => mret extra
  | (k, v) :: explicit' =>
      if bool_decide (k ∈ dom extra) then
        raise (TypeError (f +:+ "() got multiple values for keyword argument '"
                            +:+ k +:+ "'"))
      else
        kw ← call_kwargs f explicit' extra;
        mret (<[k := v]> kw)
  end.

(** ** [gmt/figure.py] *)

Record Figure : Type := mkFigure { _name : string }.

(** All supported formats ([fmts] in [Figure.savefig]). *)
Definition fmts : gmap string string :=
  list_to_map [("png", "g"); ("pdf", "f"); ("jpg", "j");
               ("bmp", "b"); ("eps", "e"); ("tif", "t")].

(** The [use_alias(...)] line above [Figure.psconvert]. *)
Definition psconvert_aliases : list (string * string) :=
  [("F", "prefix"); ("T", "fmt"); ("A", "crop"); ("E", "dpi"); ("P", "portrait")].

Section FigureModule.

Variable E : env.

Definition figure (name : string) : M unit :=
  (* Passing format '-' tells gmt.end to not produce any files. *)
  let fmt := "-" in
  with_APISession E (fun session =>
    call_module E session "figure" (name +:+ " " +:+ fmt)).

Definition _unique_name : M string :=
  tmpfile ← NamedTemporaryFile E "gmt-python-" os_path.curdir true;
  let name := os_path.split_tail (tmp_name tmpfile) in
  close tmpfile;;
  mret name.

(** [Figure.__init__] *)
Definition Figure__init__ : M Figure :=
  name ← _unique_name;
  mret (mkFigure name).

Definition _preprocess (self : Figure) (kwargs : Kwargs) : M Kwargs :=
  figure (_name self);;
  mret kwargs.

(** The body of [Figure.psconvert], below its decorators. *)
Definition psconvert_wrapped (self : Figure) (kwargs : Kwargs) : M unit :=
  kwargs ← _preprocess self kwargs;
  (* Default cropping the figure to True *)
  let kwargs :=
    if bool_decide ("A" ∉ dom kwargs) then <["A" := PyStr ""]> kwargs
    else kwargs in
  (* Default portrait mode to True *)
  let kwargs :=
    if bool_decide ("P" ∉ dom kwargs) then <["P" := PyStr ""]> kwargs
    else kwargs in
  with_APISession E (fun session =>
    call_module E session "psconvert" (build_arg_string E kwargs)).

(** [Figure.psconvert] as callers see it: [use_alias] runs first, then
    [kwargs_to_strings], then the body ([fmt_docstring] only edits the
    docstring). *)
Definition psconvert (self : Figure) (kwargs : Kwargs) : M unit :=
  psconvert_wrapped self
    (kwargs_to_strings E (use_alias E psconvert_aliases kwargs)).

(** [Figure.savefig]; [psconvert] stands for the bound method
    [self.psconvert]. *)
Definition savefig_with (psconvert : Kwargs → M unit)
    (fname orientation : string) (transparent crop : bool)
    (kwargs : Kwargs) : M unit :=
  assert_ (bool_decide (orientation ∈ ["portrait"; "landscape"]))
          ("Invalid orientation '" +:+ orientation +:+ "'.");;
  let portrait := bool_decide (orientation = "portrait") in
  let '(prefix, ext) := os_path.splitext fname in
  let ext := slice_from ext 1 in (* Remove the . *)
  assert_ (bool_decide (ext ∈ dom fmts))
          ("Unknown extension '." +:+ ext +:+ "'");;
  fmt ← getitem fmts ext;
  fmt ← (if transparent then
           assert_ (bool_decide (ext = "png"))
                   ("Transparency unavailable for '" +:+ ext
                    +:+ "', only for png.");;
           mret (upper fmt)
         else mret fmt);
  kwargs ← call_kwargs "psconvert"
             [("prefix", PyStr prefix); ("fmt", PyStr fmt);
              ("crop", PyBool crop); ("portrait", PyBool portrait)] kwargs;
  psconvert kwargs.

Definition savefig (self : Figure) : string → string → bool → bool → Kwargs → M unit :=
  savefig_with (psconvert self).

End FigureModule.

(** ** Observations used in the statements *)

(** The status the shared library answers when [call_module] is run in
    state [s]. *)
Definition native_status (E : env) (s : state) (session : Z)
    (module args : string) : option Z :=
  (GMT_Call_Module (load_libgmt E) s session (encode module)
                   (GMT_MODULE_CMD (consts E)) (encode args)).1.

(** The handle the shared library answers when [create_session] is run in
    state [s]. *)
Definition native_handle (E : env) (s : state) : option Z :=
  GMT_Create_Session (load_libgmt E) s (GMT_SESSION_NAME (consts E))
                     (GMT_PAD_DEFAULT (consts E))
                     (GMT_SESSION_EXTERNAL (consts E)) None.

(** The log entry of a [create_session] that was answered [ret]. *)
Definition created (E : env) (ret : option Z) : event :=
  EvCreateSession (GMT_SESSION_NAME (consts E)) (GMT_PAD_DEFAULT (consts E))
                  (GMT_SESSION_EXTERNAL (consts E)) None ret.

(** The log entry of a [call_module] on [session] made in state [s]. *)
Definition called (E : env) (s : state) (session : Z) (module args : string)
    : event :=
  EvCallModule session (encode module) (GMT_MODULE_CMD (consts E)) (encode args)
               (native_status E s session module args).

(** What one module call wrapped in its own session adds to the log when
    started in state [s]: the creation, then, if a handle came back, the
    call and the destruction. *)
Definition scoped_call_trace (E : env) (s : state) (module args : string)
    : list event :=
  match native_handle E s with
  | None => [created E None]
  | Some h =>
      [created E (Some h);
       called E (record (created E (Some h)) s) h module args;
       EvDestroySession h]
  end.

(** The defaults of [Figure.psconvert] in the words of its docstring:
    cropping ([A]) and portrait mode ([P]) are on unless the caller says
    otherwise. *)
Definition psconvert_defaults : Kwargs :=
  {[ "A" := PyStr ""; "P" := PyStr "" ]}.

(** The keywords the body of [psconvert] receives from its decorators. *)
Definition received (E : env) (kwargs : Kwargs) : Kwargs :=
  kwargs_to_strings E (use_alias E psconvert_aliases kwargs).

(** The behaviour the comment in [figure] relies on: the native [figure]
    module, given the format [-], writes no file. *)
Definition figure_module_writes_no_file (E : env) : Prop :=
  ∀ s h name,
    (GMT_Call_Module (load_libgmt E) s h (encode "figure")
                     (GMT_MODULE_CMD (consts E)) (encode (name +:+ " -"))).2
    = files s.

(** Running [m] from [s] appends exactly [tr] to the log of native calls. *)
Definition emits {A} (m : M A) (s : state) (tr : list event) : Prop :=
  log (m s).2 = (log s ++ tr)%list.

Definition is_module_call (e : event) : bool :=
  match e with EvCallModule _ _ _ _ _ => true | _ => false end.

Definition module_calls (tr : list event) : list event := filter is_module_call tr.

(** The session discipline as an automaton over a trace: [open] is the
    session currently alive.  A session is created only when none is alive,
    module calls and the destruction name the live session, and nothing is
    left alive at the end. *)
Fixpoint session_scoped (open : option Z) (tr : list event) : bool :=
  match tr with
  | [] => bool_decide (open = None)
  | EvCreateSession _ _ _ _ ret :: tr' =>
      match open with
      | None => session_scoped ret tr'
      | Some _ => false
      end
  | EvCallModule h _ _ _ _ :: tr' =>
      match open with
      | Some h' => bool_decide (h = h') && session_scoped open tr'
      | None => false
      end
  | EvDestroySession h :: tr' =>
      match open with
      | Some h' => bool_decide (h = h') && session_scoped None tr'
      | None => false
      end
  end.

(** A body that only issues module calls on the session it is given. *)
Definition only_module_calls {A} (body : Z → M A) : Prop :=
  ∀ h s, ∃ tr,
    emits (body h) s tr
    ∧ Forall (λ e, ∃ m md a st, e = EvCallModule h m md a st) tr.

(** [savefig] hands the keywords [kw] to [self.psconvert], whatever that
    method is, and does nothing else. *)
Definition passes_to_psconvert (fname orientation : string)
    (transparent crop : bool) (kwargs kw : Kwargs) : Prop :=
  ∀ (psconvert : Kwargs → M unit) (s : state),
    savefig_with psconvert fname orientation transparent crop kwargs s
    = psconvert kw s.

(** [savefig] raises [e] without calling [self.psconvert] and without
    touching the state. *)
Definition fails_before_psconvert (fname orientation : string)
    (transparent crop : bool) (kwargs : Kwargs) (e : exn) : Prop :=
  ∀ (psconvert : Kwargs → M unit) (s : state),
    savefig_with psconvert fname orientation transparent crop kwargs s
    = (Raises e, s).

(** The extension [savefig] computes from a file name. *)
Definition extension (fname : string) : string :=
  slice_from (os_path.splitext fname).2 1.

Definition is_upper_code (fmt : string) : bool :=
  match fmt with
  | String c EmptyString => is_upper_ascii c
  | _ => false
  end.

(** ** A sample environment *)

Module Sample.

Definition format_value (v : pyval) : string :=
  match v with
  | PyNone => "None"
  | PyBool true => "True"
  | PyBool false => "False"
  | PyInt z => pretty z
  | PyStr s => s
  end.

Definition translate_aliases (aliases : list (string * string))
    (kwargs : Kwargs) : Kwargs :=
  foldl (λ kw '(arg, alias),
           match kw !! alias with
           | Some v => <[arg := v]> (delete alias kw)
           | None => kw
           end) kwargs aliases.

Definition remove_bools (kwargs : Kwargs) : Kwargs :=
  omap (λ v, match v with
             | PyBool true => Some (PyStr "")
             | PyBool false => None
             | _ => Some v
             end) kwargs.

Definition key_le (x y : string * pyval) : Prop := String.leb x.1 y.1 = true.

#[local] Instance key_le_dec x y : Decision (key_le x y).
Proof. unfold key_le. apply _. Defined.

Definition tokens (kwargs : Kwargs) : list string :=
  map (λ '(k, v), "-" +:+ k +:+ format_value v)
      (merge_sort key_le (map_to_list kwargs)).

Definition flags (kwargs : Kwargs) : string :=
  String.concat " " (tokens kwargs).

(** A library that always succeeds: handles are fresh per call, [figure]
    writes nothing and [psconvert] leaves one file behind. *)
Definition lib : libgmt :=
  mkLibgmt
    (λ s _ _ _ _, Some (4096 + Z.of_nat (length (log s))))
    (λ s _ module _ _,
       (Some 0,
        if String.eqb module "psconvert"
        then {["/home/user/map.png"]} ∪ files s else files s)).

(** A library in which every module call fails with status 1. *)
Definition failing_lib : libgmt :=
  mkLibgmt (λ _ _ _ _ _, Some 4096) (λ s _ _ _ _, (Some 1, files s)).

Definition gmt_constants : constants :=
  mkConstants "gmt-python-session" 2 2 0.

(** [os.TMP_MAX] on Linux. *)
Definition linux_TMP_MAX : nat := Z.to_nat 238328.

(** Directories that exist and can be written. *)
Definition no_create_error : state → string → option exn := λ _ _, None.

Definition E0 : env :=
  mkEnv gmt_constants lib "/home/user"
        (λ n, "tmp" +:+ pretty (Z.of_nat n))
        linux_TMP_MAX no_create_error
        translate_aliases remove_bools flags.

Definition E_fail : env :=
  mkEnv gmt_constants failing_lib "/home/user"
        (λ n, "tmp" +:+ pretty (Z.of_nat n))
        linux_TMP_MAX no_create_error
        translate_aliases remove_bools flags.

(** The random generator draws the same eight letters every time. *)
Definition E_repeat : env :=
  mkEnv gmt_constants lib "/home/user" (λ _, "abcd1234")
        linux_TMP_MAX no_create_error
        translate_aliases remove_bools flags.

Definition s0 : state := mkState [] ∅ 0.

Definition fig0 : Figure := mkFigure "gmt-python-tmp0".

End Sample.

(** ** More observations *)

#[global] Instance pyval_eq_dec : EqDecision pyval.
Proof. solve_decision. Defined.

(** The path [tempfile] tries for the [n]-th random name. *)
Definition candidate_path (E : env) (dir pre suf : string) (n : nat) : string :=
  os_path.abspath (getcwd E)
    (os_path.join dir (pre +:+ candidate_names E n +:+ suf)).

(** A path is closed when it is empty or ends with the separator. *)
Definition closed_prefix (P : string) : Prop :=
  chars P = [] ∨ ∃ P0, chars P = (P0 ++ [os_path.sep])%list.

(** ** Previews: [Figure._png_preview], [Figure.show], [Figure._repr_png_] *)

(** What the preview code needs beyond [env]. *)
Record host : Type := mkHost {
  host_env : env;
  (* tempfile.gettempdir() *)
  gettempdir : string;
  (* the bytes open(path, 'rb').read() returns for a path that exists *)
  read_bytes : state → string → string;
  (* whether [from IPython.display import Image] succeeded; the module sets
     [Image = None] when it did not *)
  Image_imported : bool
}.

(** Reading a file adds one exception to the ones of [exn]. *)
Inductive error : Type :=
  | Raised (e : exn)
  | FileNotFoundError (path : string).

Inductive result (A : Type) : Type :=
  | Ok (a : A)
  | Err (e : error).
Arguments Ok {A} a.
Arguments Err {A} e.

Definition IO (A : Type) : Type := state → result A * state.

Definition io_bind {A B} (m : IO A) (k : A → IO B) : IO B :=
  fun s =>
    match m s with
    | (Ok a, s') => k a s'
    | (Err e, s') => (Err e, s')
    end.

(** A computation of [M] run where more can go wrong. *)
Definition lift {A} (m : M A) : IO A :=
  fun s =>
    match m s with
    | (Returns a, s') => (Ok a, s')
    | (Raises e, s') => (Err (Raised e), s')
    end.

(** [IPython.display.Image(data=..., width=...)]. *)
Record image : Type := mkImage { data : string; width : pyval }.

Section Preview.

Variable H : host.

(** [tempfile.mkdtemp]: as [_mkstemp_inner], with [os.mkdir] in place of
    [os.open]; the path is returned as it was joined. *)
Fixpoint _mkdtemp_loop (dir pre suf : string) (seq : nat) : M string :=
  match seq with
  | O => raise (FileExistsError "No usable temporary directory name found")
  | S seq' => fun s =>
      let name := candidate_names (host_env H) (drawn s) in
      let s := draw s in
      let file := os_path.join dir (pre +:+ name +:+ suf) in
      match os_create_error (host_env H) s
              (os_path.abspath (getcwd (host_env H)) file) with
      | Some e => (Raises e, s)
      | None =>
          if bool_decide (os_path.abspath (getcwd (host_env H)) file ∈ files s)
          then _mkdtemp_loop dir pre suf seq' s
          else (Returns file,
                set_files ({[os_path.abspath (getcwd (host_env H)) file]}
                           ∪ files s) s)
      end
  end.

Definition mkdtemp : M string :=
  _mkdtemp_loop (gettempdir H) "tmp" "" (TMP_MAX (host_env H)).

(** Whether [path] is the directory [dir] or lies below it. *)
Definition under (dir path : string) : bool :=
  String.eqb path dir || String.prefix (dir +:+ "/") path.

(** [shutil.rmtree(name)]. *)
Definition rmtree (name : string) (s : state) : state :=
  set_files
    (filter (λ p, under (os_path.abspath (getcwd (host_env H)) name) p = false)
            (files s)) s.

(** [with TemporaryDirectory() as tmpdir: body]: the directory is removed
    with all it holds when the block is left, by completion or by an
    error. *)
Definition with_TemporaryDirectory {A} (body : string → IO A) : IO A :=
  fun s =>
    match mkdtemp s with
    | (Returns tmpdir, s1) =>
        let '(r, s2) := body tmpdir s1 in (r, rmtree tmpdir s2)
    | (Raises e, s1) => (Err (Raised e), s1)
    end.

(** [with open(fname, 'rb') as image: png = image.read()]; a path that
    exists is taken to be a readable file. *)
Definition open_read (fname : string) : IO string :=
  fun s =>
    if bool_decide (os_path.abspath (getcwd (host_env H)) fname ∈ files s)
    then (Ok (read_bytes H s fname), s)
    else (Err (FileNotFoundError fname), s).

Definition _png_preview (self : Figure) (dpi : pyval) (anti_alias : bool)
    : IO string :=
  let savefig_args : Kwargs := {[ "dpi" := dpi ]} in
  let savefig_args :=
    if anti_alias
    then <["Qt" := PyInt 4]> (<["Qg" := PyInt 4]> savefig_args)
    else savefig_args in
  with_TemporaryDirectory (λ tmpdir,
    let fname := os_path.join tmpdir (_name self +:+ "-preview.png") in
    io_bind (lift (savefig (host_env H) self fname "portrait" false true
                           savefig_args))
            (λ _, open_read fname)).

Definition show (self : Figure) (dpi width : pyval) : IO image :=
  io_bind (_png_preview self dpi true) (λ png,
    if Image_imported H
    then fun s => (Ok (mkImage png width), s)
    else fun s => (Err (Raised (TypeError "'NoneType' object is not callable")), s)).

Definition _repr_png_ (self : Figure) : IO string :=
  _png_preview self (PyInt 70) true.

End Preview.

Module Sample2.

(** Random names that never repeat: one more [a] each time. *)
Definition E_counting : env :=
  mkEnv Sample.gmt_constants Sample.lib "/home/user"
        (λ n, str (replicate (S n) "a"%char))
        Sample.linux_TMP_MAX Sample.no_create_error
        Sample.translate_aliases Sample.remove_bools Sample.flags.

(** A library whose [psconvert] writes the file named by its [-F] and [-T]
    flags is beyond a sample; this one writes the preview of [Sample.fig0]
    in the first temporary directory. *)
Definition preview_lib : libgmt :=
  mkLibgmt
    (λ s _ _ _ _, Some (4096 + Z.of_nat (length (log s))))
    (λ s _ module _ _,
       (Some 0,
        if String.eqb module "psconvert"
        then {["/tmp/tmpa/gmt-python-tmp0-preview.png"]} ∪ files s
        else files s)).

Definition H0 : host :=
  mkHost (mkEnv Sample.gmt_constants preview_lib "/home/user"
                (λ n, str (replicate (S n) "a"%char))
                Sample.linux_TMP_MAX Sample.no_create_error
                Sample.translate_aliases Sample.remove_bools Sample.flags)
         "/tmp" (λ _ _, "PNG") false.

Definition H1 : host :=
  mkHost (host_env H0) "/tmp" (λ _ _, "PNG") true.

End Sample2.

(** * Properties *)

Ltac unfold_monad :=
  unfold mbind, M_bind, mret, M_ret, bind, ret, raise, assert_, finally in *.

(** ** Session acquisition and module dispatch *)

Section ClibProperties.

Variable E : env.

Lemma call_module_log session module args s :
  emits (call_module E session module args) s
    [EvCallModule session (encode module) (GMT_MODULE_CMD (consts E))
                  (encode args) (native_status E s session module args)].
Proof.
  unfold emits, call_module, native_status.
  destruct (GMT_Call_Module _ _ _ _ _ _) as [[[|p|p]|] fs]; reflexivity.
Qed.

Lemma call_module_outcome session module args s :
  (call_module E session module args s).1
  = match native_status E s session module args with
    | Some 0 => Returns tt
    | Some code =>
        Raises (AssertionError ("Failed with status code " +:+ pretty code +:+ "."))
    | None => Raises (AssertionError "Failed returning None.")
    end.
Proof.
  unfold call_module, native_status.
  destruct (GMT_Call_Module _ _ _ _ _ _) as [[[|p|p]|] fs]; reflexivity.
Qed.

(** C1.  [call_module] makes exactly one [GMT_Call_Module] invocation; it
    returns normally if and only if that invocation answered status 0,
    and for every other answer (a nonzero code or no status at all) it
    raises an [AssertionError]: no failing status goes unnoticed. *)
Theorem call_module_returns_iff_status_zero session module args s :
  emits (call_module E session module args) s
    [EvCallModule session (encode module) (GMT_MODULE_CMD (consts E))
                  (encode args) (native_status E s session module args)]
  ∧ (returns_normally (call_module E session module args s).1 = true
     ↔ native_status E s session module args = Some 0)
  ∧ (native_status E s session module args ≠ Some 0 →
     ∃ msg, (call_module E session module args s).1
            = Raises (AssertionError msg)).
Proof.
  split; [apply call_module_log|].
  rewrite call_module_outcome.
  destruct (native_status E s session module args) as [[|p|p]|]; simpl.
  - split; [done|]. intros Hne. by destruct Hne.
  - split; [split; intros; discriminate|]. eauto.
  - split; [split; intros; discriminate|]. eauto.
  - split; [split; intros; discriminate|]. eauto.
Qed.

(** C4.  [create_session] makes one [GMT_Create_Session] invocation, with
    the session name, the padding mode, the external-session flag and a
    null print callback; a null handle raises the assertion, any other
    handle is returned as it came. *)
Theorem create_session_returns_native_handle s :
  emits (create_session E) s
    [EvCreateSession (GMT_SESSION_NAME (consts E)) (GMT_PAD_DEFAULT (consts E))
                     (GMT_SESSION_EXTERNAL (consts E)) None
                     (native_handle E s)]
  ∧ (create_session E s).1
    = match native_handle E s with
      | None =>
          Raises (AssertionError
                    "Failed creating GMT API pointer using create_session.")
      | Some session => Returns session
      end
  ∧ files (create_session E s).2 = files s.
Proof.
  unfold emits, create_session, native_handle.
  destruct (GMT_Create_Session _ _ _ _ _ _); done.
Qed.

End ClibProperties.

(** ** [Figure.savefig]: argument checks and format selection *)

Section SavefigProperties.

Lemma fmts_lookup ext code :
  fmts !! ext = Some code →
  (ext, code) ∈ [("png", "g"); ("pdf", "f"); ("jpg", "j");
                 ("bmp", "b"); ("eps", "e"); ("tif", "t")].
Proof. unfold fmts. apply elem_of_list_to_map_2. Qed.

(** Binding keywords changes no state, and either reports a duplicate or
    adds every explicit keyword. *)
Lemma call_kwargs_cases f explicit (extra : Kwargs) :
  (¬ Forall (λ k, k ∉ dom extra) explicit.*1
   ∧ ∃ msg, ∀ s, call_kwargs f explicit extra s = (Raises (TypeError msg), s))
  ∨ (Forall (λ k, k ∉ dom extra) explicit.*1
     ∧ ∀ s, call_kwargs f explicit extra s
            = (Returns (foldr (λ kv kw, <[kv.1 := kv.2]> kw) extra explicit), s)).
Proof.
  induction explicit as [|[k v] explicit IH]; simpl.
  - right. split; [constructor | done].
  - destruct (decide (k ∈ dom extra)) as [Hk|Hk].
    + rewrite (bool_decide_eq_true_2 _ Hk). left. split.
      * rewrite Forall_cons. tauto.
      * eexists. intros s. reflexivity.
    + rewrite (bool_decide_eq_false_2 _ Hk).
      destruct IH as [[Hno [msg IH]] | [Hall IH]].
      * left. split; [rewrite Forall_cons; tauto|].
        exists msg. intros s. unfold_monad. by rewrite IH.
      * right. split; [by constructor|]. intros s. unfold_monad. by rewrite IH.
Qed.

#[local] Arguments call_kwargs : simpl never.

(** The three ways a call of [savefig] can go. *)
Lemma savefig_with_cases fname orientation transparent crop (kwargs : Kwargs) :
  (∃ msg,
      fails_before_psconvert fname orientation transparent crop kwargs
                             (AssertionError msg)
      ∧ (orientation ∉ ["portrait"; "landscape"]
         ∨ extension fname ∉ dom fmts
         ∨ (transparent = true ∧ extension fname ≠ "png")))
  ∨ (∃ msg,
      fails_before_psconvert fname orientation transparent crop kwargs
                             (TypeError msg)
      ∧ orientation ∈ ["portrait"; "landscape"]
      ∧ extension fname ∈ dom fmts
      ∧ (transparent = true → extension fname = "png")
      ∧ ¬ Forall (λ k, k ∉ dom kwargs) ["prefix"; "fmt"; "crop"; "portrait"])
  ∨ (∃ code kw,
      orientation ∈ ["portrait"; "landscape"]
      ∧ fmts !! extension fname = Some code
      ∧ (transparent = true → extension fname = "png")
      ∧ Forall (λ k, k ∉ dom kwargs) ["prefix"; "fmt"; "crop"; "portrait"]
      ∧ kw !! "fmt" = Some (PyStr (if transparent then upper code else code))
      ∧ passes_to_psconvert fname orientation transparent crop kwargs kw).
Proof.
  unfold fails_before_psconvert, passes_to_psconvert, extension, savefig_with.
  destruct (os_path.splitext fname) as [prefix ext]; simpl.
  set (ext' := slice_from ext 1).
  destruct (decide (orientation ∈ ["portrait"; "landscape"])) as [Ho|Ho];
    [rewrite (bool_decide_eq_true_2 _ Ho)
    |rewrite (bool_decide_eq_false_2 _ Ho); left; eexists; split;
     [intros; reflexivity | by left]].
  destruct (fmts !! ext') as [code|] eqn:Hf.
  2:{ left. assert (ext' ∉ dom fmts) as Hd by by apply not_elem_of_dom.
      rewrite (bool_decide_eq_false_2 _ Hd). eexists. split;
        [intros; reflexivity | by right; left]. }
  assert (ext' ∈ dom fmts) as Hd by (apply elem_of_dom; eauto).
  rewrite (bool_decide_eq_true_2 _ Hd).
  unfold getitem. rewrite Hf.
  assert (∀ fmt : string,
    (¬ Forall (λ k, k ∉ dom kwargs) ["prefix"; "fmt"; "crop"; "portrait"]
     ∧ ∃ msg, ∀ s,
       call_kwargs "psconvert"
         [("prefix", PyStr prefix); ("fmt", PyStr fmt);
          ("crop", PyBool crop);
          ("portrait", PyBool (bool_decide (orientation = "portrait")))]
         kwargs s = (Raises (TypeError msg), s))
    ∨ (∃ kw, Forall (λ k, k ∉ dom kwargs) ["prefix"; "fmt"; "crop"; "portrait"]
         ∧ kw !! "fmt" = Some (PyStr fmt)
         ∧ ∀ s, call_kwargs "psconvert"
                  [("prefix", PyStr prefix); ("fmt", PyStr fmt);
                   ("crop", PyBool crop);
                   ("portrait", PyBool (bool_decide (orientation = "portrait")))]
                  kwargs s = (Returns kw, s))) as Hcall.
  { intros fmt.
    destruct (call_kwargs_cases "psconvert"
                [("prefix", PyStr prefix); ("fmt", PyStr fmt);
                 ("crop", PyBool crop);
                 ("portrait", PyBool (bool_decide (orientation = "portrait")))]
                kwargs) as [Hdup | [Hfree Hret]]; [by left|].
    right. eexists. split; [exact Hfree|]. split; [|exact Hret].
    simpl. rewrite lookup_insert_ne by done. by rewrite lookup_insert_eq. }
  destruct transparent.
  - destruct (decide (ext' = "png")) as [He|He].
    + rewrite (bool_decide_eq_true_2 _ He).
      destruct (Hcall (upper code)) as [[Hdup [msg Hc]]|(kw & Hfree & Hkw & Hc)].
      * right; left. exists msg. split; [|done].
        intros ps s. unfold_monad. simpl. by rewrite Hc.
      * right; right. exists code, kw. repeat split; try done.
        intros ps s. unfold_monad. simpl. by rewrite Hc.
    + rewrite (bool_decide_eq_false_2 _ He). left. eexists. split;
        [intros; reflexivity | by right; right].
  - destruct (Hcall code) as [[Hdup [msg Hc]]|(kw & Hfree & Hkw & Hc)].
    + right; left. exists msg. split; [|done].
      intros ps s. unfold_monad. simpl. by rewrite Hc.
    + right; right. exists code, kw. repeat split; try done.
      intros ps s. unfold_monad. simpl. by rewrite Hc.
Qed.


(** What reaches [psconvert] is determined by the call: two dictionaries
    that both describe it carry the same format code. *)
Lemma passes_to_psconvert_fmt fname orientation transparent crop
    (kwargs kw kw' : Kwargs) fmt :
  passes_to_psconvert fname orientation transparent crop kwargs kw →
  passes_to_psconvert fname orientation transparent crop kwargs kw' →
  kw !! "fmt" = Some (PyStr fmt) →
  kw' !! "fmt" = Some (PyStr fmt).
Proof.
  intros Hkw Hkw' Hfmt.
  pose (probe := λ (k : Kwargs) (s : state),
          match k !! "fmt" with
          | Some (PyStr f) => (Raises (KeyError f), s)
          | _ => (Returns tt, s)
          end).
  pose proof (Hkw probe (mkState [] ∅ 0%nat)) as H1.
  rewrite (Hkw' probe) in H1. unfold probe in H1. rewrite Hfmt in H1.
  destruct (kw' !! "fmt") as [[| | |f]|]; congruence.
Qed.

Lemma passes_excludes_failure fname orientation transparent crop
    (kwargs kw : Kwargs) e :
  passes_to_psconvert fname orientation transparent crop kwargs kw →
  fails_before_psconvert fname orientation transparent crop kwargs e →
  False.
Proof.
  intros Hkw Hfail.
  pose proof (Hkw (λ _ s, (Returns tt, s)) (mkState [] ∅ 0%nat)) as H1.
  rewrite Hfail in H1. discriminate.
Qed.

Lemma documented_codes_lowercase ext code :
  fmts !! ext = Some code → is_upper_code code = false ∧ (ext = "png" → upper code = "G").
Proof.
  intros Hf. apply fmts_lookup in Hf.
  repeat (apply elem_of_cons in Hf as [Hf|Hf];
          [injection Hf as -> ->; split; [reflexivity | try done] |]).
  by apply elem_of_nil in Hf.
Qed.

(** Each of the six documented extensions is in [fmts], with its
    documented letter. *)
Lemma fmts_documented ext code :
  (ext, code) ∈ [("png", "g"); ("pdf", "f"); ("jpg", "j");
                 ("bmp", "b"); ("eps", "e"); ("tif", "t")] →
  fmts !! ext = Some code.
Proof.
  intros Hin.
  repeat (apply elem_of_cons in Hin as [Hin|Hin];
          [injection Hin as -> ->; vm_compute; reflexivity |]).
  by apply elem_of_nil in Hin.
Qed.

(** C2.  For a file name whose extension is one of png, pdf, jpg, bmp, eps
    and tif, [savefig] accepts the extension, and the format keyword it
    hands to [psconvert] is the documented letter of that extension (g, f,
    j, b, e, t), except that a transparent save of a png hands over [G]; an
    upper-case code is handed over exactly on that path.  A call with a
    valid orientation, no keyword given twice and no transparency outside
    png does reach [psconvert], with that code. *)
Theorem savefig_selects_documented_code fname orientation transparent crop
    (kwargs : Kwargs) code :
  (extension fname, code) ∈ [("png", "g"); ("pdf", "f"); ("jpg", "j");
                             ("bmp", "b"); ("eps", "e"); ("tif", "t")] →
  extension fname ∈ dom fmts
  ∧ (orientation ∈ ["portrait"; "landscape"] →
     Forall (λ k, k ∉ dom kwargs) ["prefix"; "fmt"; "crop"; "portrait"] →
     (transparent = true → extension fname = "png") →
     ∃ kw,
       passes_to_psconvert fname orientation transparent crop kwargs kw
       ∧ kw !! "fmt" = Some (PyStr (if transparent then "G" else code)))
  ∧ (∀ kw,
       passes_to_psconvert fname orientation transparent crop kwargs kw →
       kw !! "fmt" = Some (PyStr (if transparent then "G" else code))
       ∧ (transparent = true → extension fname = "png"))
  ∧ is_upper_code (if transparent then "G" else code) = transparent.
Proof.
  intros Hdoc. pose proof (fmts_documented _ _ Hdoc) as Hf.
  pose proof (documented_codes_lowercase _ _ Hf) as [Hlow Hpng].
  split; [apply elem_of_dom; eauto|].
  destruct (savefig_with_cases fname orientation transparent crop kwargs)
    as [(msg & Hfail & Hwhy) | [(msg & Hfail & Ho & Hd & Ht & Hdup)
                               | (code' & kw0 & Ho & Hf' & Ht & Hfree & Hfmt & Hpass)]].
  - split; [|split].
    + intros Ho Hfree Ht. exfalso. destruct Hwhy as [Hw|[Hw|[Hw1 Hw2]]]; [done| |by auto].
      apply Hw, elem_of_dom. eauto.
    + intros kw Hkw. destruct (passes_excludes_failure _ _ _ _ _ _ _ Hkw Hfail).
    + by destruct transparent.
  - split; [|split].
    + intros _ Hfree _. done.
    + intros kw Hkw. destruct (passes_excludes_failure _ _ _ _ _ _ _ Hkw Hfail).
    + by destruct transparent.
  - rewrite Hf in Hf'. injection Hf' as <-.
    assert (kw0 !! "fmt" = Some (PyStr (if transparent then "G" else code)))
      as Hfmt0.
    { rewrite Hfmt. destruct transparent; [|done]. by rewrite Hpng; auto. }
    split; [by eauto|]. split; [|by destruct transparent].
    intros kw Hkw. split; [|done].
    by apply (passes_to_psconvert_fmt _ _ _ _ _ _ _ _ Hpass Hkw).
Qed.

Variable E : env.

(** C3.  With an orientation other than portrait and landscape, or with
    an extension outside the supported six, [savefig] raises an
    [AssertionError] and leaves the state as it found it: [psconvert] is
    not entered and no native call is logged. *)
Theorem savefig_rejects_before_native_call (self : Figure) fname orientation
    transparent crop (kwargs : Kwargs) s :
  orientation ∉ ["portrait"; "landscape"] ∨ extension fname ∉ dom fmts →
  ∃ msg,
    savefig E self fname orientation transparent crop kwargs s
    = (Raises (AssertionError msg), s)
    ∧ fails_before_psconvert fname orientation transparent crop kwargs
                             (AssertionError msg).
Proof.
  intros Hbad.
  destruct (savefig_with_cases fname orientation transparent crop kwargs)
    as [(msg & Hfail & _) | [(msg & _ & Ho & Hd & _)
                            | (code' & kw0 & Ho & Hf' & _)]].
  - exists msg. split; [apply Hfail | exact Hfail].
  - exfalso. tauto.
  - exfalso. destruct Hbad as [Hb|Hb]; [done|]. apply Hb, elem_of_dom. eauto.
Qed.

(** C7.  A transparent save to a supported extension other than png
    raises an [AssertionError] at once, with the state untouched (no
    [psconvert], no native call, no file); a transparent save to png goes
    on to [psconvert] with format code [G]. *)
Theorem savefig_transparent_only_png (self : Figure) fname orientation crop
    (kwargs : Kwargs) :
  extension fname ∈ dom fmts →
  (extension fname ≠ "png" →
   ∃ msg,
     fails_before_psconvert fname orientation true crop kwargs
                            (AssertionError msg)
     ∧ ∀ s, savefig E self fname orientation true crop kwargs s
            = (Raises (AssertionError msg), s))
  ∧ (extension fname = "png" →
     orientation ∈ ["portrait"; "landscape"] →
     Forall (λ k, k ∉ dom kwargs) ["prefix"; "fmt"; "crop"; "portrait"] →
     ∃ kw,
       kw !! "fmt" = Some (PyStr "G")
       ∧ passes_to_psconvert fname orientation true crop kwargs kw
       ∧ ∀ s, savefig E self fname orientation true crop kwargs s
              = psconvert E self kw s).
Proof.
  intros Hd.
  destruct (savefig_with_cases fname orientation true crop kwargs)
    as [(msg & Hfail & Hwhy) | [(msg & Hfail & Ho & _ & Ht & Hdup)
                               | (code' & kw0 & Ho & Hf' & Ht & Hfree & Hfmt & Hpass)]].
  - split.
    + intros _. exists msg. split; [exact Hfail|]. intros s. apply Hfail.
    + intros Hpng Ho Hfree. exfalso. destruct Hwhy as [Hw|[Hw|[_ Hw]]]; done.
  - split; [intros Hne; destruct Hne; auto | intros; done].
  - split; [intros Hne; destruct Hne; auto|].
    intros Hpng _ _. exists kw0. split; [|split; [exact Hpass|]].
    + rewrite Hfmt. destruct (documented_codes_lowercase _ _ Hf') as [_ Hup].
      by rewrite Hup.
    + intros s. apply Hpass.
Qed.

End SavefigProperties.

(** ** Scoped sessions *)

Section SessionProperties.

Variable E : env.

Lemma emits_unique {A} (m : M A) s tr tr' :
  emits m s tr → emits m s tr' → tr = tr'.
Proof. unfold emits. intros -> H. by apply app_inv_head in H. Qed.

Lemma with_APISession_eq {A} (body : Z → M A) s :
  with_APISession E body s
  = match native_handle E s with
    | None =>
        (Raises (AssertionError
                   "Failed creating GMT API pointer using create_session."),
         record (created E None) s)
    | Some h =>
        ((body h (record (created E (Some h)) s)).1,
         destroy_session h (body h (record (created E (Some h)) s)).2)
    end.
Proof.
  unfold with_APISession, native_handle, created. unfold_monad.
  unfold create_session.
  destruct (GMT_Create_Session _ _ _ _ _ _) as [h|]; [|reflexivity].
  by destruct (body h _).
Qed.

Lemma session_scoped_app open tr1 tr2 :
  session_scoped open tr1 = true →
  session_scoped open (tr1 ++ tr2) = session_scoped None tr2.
Proof.
  revert open. induction tr1 as [|e tr1 IH]; intros open; simpl.
  - intros H. by apply bool_decide_eq_true_1 in H as ->.
  - destruct e as [? ? ? ? ret|h ? ? ? ?|h]; destruct open as [h'|]; try done.
    + apply IH.
    + intros [Hh H]%andb_true_iff. rewrite Hh. simpl. by apply IH.
    + intros [Hh H]%andb_true_iff. rewrite Hh. simpl. by apply IH.
Qed.

Lemma session_scoped_calls h calls tr :
  Forall (λ e, ∃ m md a st, e = EvCallModule h m md a st) calls →
  session_scoped (Some h) (calls ++ tr) = session_scoped (Some h) tr.
Proof.
  induction 1 as [|e calls (m & md & a & st & ->) _ IH]; [done|].
  simpl. by rewrite bool_decide_eq_true_2.
Qed.

Lemma call_module_only_module_calls module args :
  only_module_calls (λ session, call_module E session module args).
Proof.
  intros h s. eexists. split; [apply call_module_log|].
  repeat constructor. eauto 10.
Qed.

Lemma scoped_call_emits module args s :
  emits (with_APISession E (λ session, call_module E session module args)) s
        (scoped_call_trace E s module args).
Proof.
  unfold emits, scoped_call_trace. rewrite with_APISession_eq.
  destruct (native_handle E s) as [h|]; [|done].
  simpl. rewrite (call_module_log E h module args). simpl.
  by rewrite <- !app_assoc.
Qed.

Lemma scoped_call_trace_scoped module args s :
  session_scoped None (scoped_call_trace E s module args) = true.
Proof.
  unfold scoped_call_trace. destruct (native_handle E s) as [h|]; simpl; [|done].
  by rewrite !bool_decide_eq_true_2.
Qed.

Lemma figure_emits name s :
  emits (figure E name) s (scoped_call_trace E s "figure" (name +:+ " -")).
Proof. apply scoped_call_emits. Qed.

Lemma defaults_fill (kw : Kwargs) :
  (if bool_decide ("P" ∉ dom (if bool_decide ("A" ∉ dom kw)
                              then <["A" := PyStr ""]> kw else kw))
   then <["P" := PyStr ""]> (if bool_decide ("A" ∉ dom kw)
                             then <["A" := PyStr ""]> kw else kw)
   else (if bool_decide ("A" ∉ dom kw) then <["A" := PyStr ""]> kw else kw))
  = kw ∪ psconvert_defaults.
Proof.
  apply map_eq. intros k. rewrite lookup_union. unfold psconvert_defaults.
  destruct (decide (k = "A")) as [->|HA];
    [|destruct (decide (k = "P")) as [->|HP]];
    repeat case_bool_decide;
    repeat match goal with
           | H : _ ∉ dom _ |- _ => apply not_elem_of_dom in H
           | H : _ ∈ dom _ |- _ => apply elem_of_dom in H as [? H]
           end;
    simplify_map_eq; try done;
    repeat match goal with H : _ !! _ = _ |- _ => rewrite H end; reflexivity.
Qed.

Lemma psconvert_eq self kwargs s :
  psconvert E self kwargs s
  = (figure E (_name self);;
     with_APISession E (λ session,
       call_module E session "psconvert"
         (build_arg_string E (received E kwargs ∪ psconvert_defaults)))) s.
Proof.
  unfold psconvert, psconvert_wrapped, _preprocess, received.
  rewrite <- defaults_fill. unfold_monad.
  by destruct (figure E (_name self) s) as [[[]|e] s1].
Qed.


Lemma emits_bind {A B} (m : M A) (k : A → M B) s tr1 tr2 :
  emits m s tr1 →
  match (m s).1 with
  | Returns a => emits (k a) (m s).2 tr2
  | Raises _ => tr2 = []
  end →
  emits (m ≫= k) s (tr1 ++ tr2).
Proof.
  unfold emits. unfold_monad. destruct (m s) as [[a|e] s1]; simpl.
  - intros -> ->. by rewrite app_assoc.
  - intros -> ->. by rewrite app_nil_r.
Qed.

Lemma psconvert_emits self kwargs s :
  emits (psconvert E self kwargs) s
    (scoped_call_trace E s "figure" (_name self +:+ " -")
     ++ if returns_normally (figure E (_name self) s).1
        then scoped_call_trace E (figure E (_name self) s).2 "psconvert"
               (build_arg_string E (received E kwargs ∪ psconvert_defaults))
        else []).
Proof.
  unfold emits at 1. rewrite psconvert_eq. apply emits_bind.
  - apply figure_emits.
  - destruct (figure E (_name self) s).1; simpl; [|done].
    apply scoped_call_emits.
Qed.

(** C5.  A block of module calls run under [APISession] logs the session
    creation first and, when a handle was obtained, exactly one
    destruction of that handle, last, whichever way the block ends; when
    no handle was obtained the block is not entered.  The traces of
    [figure] and of [Figure.psconvert], which use this pattern, obey the
    session discipline: every module call sits between the creation and
    the one destruction of its session. *)
Theorem scoped_session_lifetime :
  (∀ A (body : Z → M A) s,
     only_module_calls body →
     ∃ tr,
       emits (with_APISession E body) s tr
       ∧ session_scoped None tr = true
       ∧ match native_handle E s with
         | None => tr = [created E None]
         | Some h =>
             ∃ calls,
               tr = created E (Some h) :: calls ++ [EvDestroySession h]
               ∧ Forall (λ e, ∃ m md a st, e = EvCallModule h m md a st) calls
         end)
  ∧ (∀ name s,
       ∃ tr, emits (figure E name) s tr ∧ session_scoped None tr = true)
  ∧ (∀ self kwargs s,
       ∃ tr, emits (psconvert E self kwargs) s tr
             ∧ session_scoped None tr = true).
Proof.
  split; [|split].
  - intros A body s Hbody. unfold emits. rewrite with_APISession_eq.
    destruct (native_handle E s) as [h|] eqn:Hh.
    + destruct (Hbody h (record (created E (Some h)) s)) as (calls & Hem & Hcalls).
      exists (created E (Some h) :: calls ++ [EvDestroySession h]).
      split; [|split; [|by eauto]].
      * simpl. rewrite Hem. simpl. by rewrite <- !app_assoc.
      * simpl. rewrite session_scoped_calls by done. simpl.
        by rewrite bool_decide_eq_true_2.
    + by exists [created E None].
  - intros name s. eexists. split; [apply figure_emits|].
    apply scoped_call_trace_scoped.
  - intros self kwargs s. eexists. split; [apply psconvert_emits|].
    rewrite session_scoped_app by apply scoped_call_trace_scoped.
    destruct (returns_normally _); [apply scoped_call_trace_scoped | done].
Qed.

(** C8.  An empty scope, a session created and destroyed with nothing in
    between, logs the creation and the destruction only: no module call is
    made and the files on disk are the ones that were there before. *)
Theorem empty_scope_leaves_nothing s :
  ∃ tr,
    emits (with_APISession E (λ _, mret tt)) s tr
    ∧ tr = match native_handle E s with
           | None => [created E None]
           | Some h => [created E (Some h); EvDestroySession h]
           end
    ∧ module_calls tr = []
    ∧ files (with_APISession E (λ _, mret tt) s).2 = files s.
Proof.
  unfold emits. rewrite with_APISession_eq.
  destruct (native_handle E s) as [h|]; eexists; (split; [|split; [reflexivity|]]);
    simpl; try done.
  by rewrite <- app_assoc.
Qed.

(** C9.  Whatever keywords the body of [Figure.psconvert] receives, the
    dictionary it flattens into the argument string of the native
    [psconvert] call holds both [A] and [P]: keywords that were given are
    kept, and a missing [A] or [P] is filled in with the empty string,
    which switches cropping and portrait mode on.  The native [psconvert]
    call is made with that argument string as soon as the preliminary
    [figure] call has returned and a session handle is obtained. *)
Theorem psconvert_defaults_crop_and_portrait (self : Figure) (kwargs : Kwargs) s :
  ∃ kw : Kwargs,
    "A" ∈ dom kw ∧ "P" ∈ dom kw
    ∧ (∀ k v, received E kwargs !! k = Some v → kw !! k = Some v)
    ∧ (received E kwargs !! "A" = None → kw !! "A" = Some (PyStr ""))
    ∧ (received E kwargs !! "P" = None → kw !! "P" = Some (PyStr ""))
    ∧ (∀ tr h module mode args status,
         emits (psconvert E self kwargs) s tr →
         EvCallModule h module mode args status ∈ tr →
         module = "psconvert" →
         args = build_arg_string E kw)
    ∧ (∀ tr s1 h,
         emits (psconvert E self kwargs) s tr →
         figure E (_name self) s = (Returns tt, s1) →
         native_handle E s1 = Some h →
         called E (record (created E (Some h)) s1) h "psconvert"
                (build_arg_string E kw) ∈ tr).
Proof.
  exists (received E kwargs ∪ psconvert_defaults).
  split; [|split; [|split; [|split; [|split; [|split]]]]].
  - apply elem_of_dom. rewrite lookup_union.
    by destruct (received E kwargs !! "A").
  - apply elem_of_dom. rewrite lookup_union.
    by destruct (received E kwargs !! "P").
  - intros k v Hk. by apply lookup_union_Some_l.
  - intros Hk. by rewrite lookup_union_r.
  - intros Hk. by rewrite lookup_union_r.
  - intros tr h module mode args status Hem Hin Hmod.
    rewrite (emits_unique _ _ _ _ Hem (psconvert_emits self kwargs s)) in Hin.
    apply elem_of_app in Hin as [Hin|Hin].
    + unfold scoped_call_trace, created, called in Hin.
      destruct (native_handle E s);
        repeat (apply elem_of_cons in Hin as [Hin|Hin]; [by simplify_eq|]);
        by apply elem_of_nil in Hin.
    + destruct (returns_normally _); [|by apply elem_of_nil in Hin].
      unfold scoped_call_trace, created, called, encode in Hin.
      destruct (native_handle E _);
        repeat (apply elem_of_cons in Hin as [Hin|Hin]; [by simplify_eq|]);
        by apply elem_of_nil in Hin.
  - intros tr s1 h Hem Hfig Hh.
    rewrite (emits_unique _ _ _ _ Hem (psconvert_emits self kwargs s)).
    apply elem_of_app. right. rewrite Hfig. simpl.
    unfold scoped_call_trace. rewrite Hh. set_solver.
Qed.

(** C10.  [Figure._preprocess], and with it [Figure.psconvert], begins
    with the scoped native call of module [figure] whose argument string
    is the object's own name followed by the format [-]; nothing is called
    before it, and it is the name [__init__] stored (the methods take the
    object as it was built and hand the keywords back untouched).
    Provided the native [figure] module writes no file when given [-],
    this preliminary call leaves the files on disk as they were. *)
Theorem psconvert_targets_own_figure (self : Figure) (kwargs : Kwargs) s :
  emits (_preprocess E self kwargs) s
        (scoped_call_trace E s "figure" (_name self +:+ " -"))
  ∧ (∃ rest,
       emits (psconvert E self kwargs) s
             (scoped_call_trace E s "figure" (_name self +:+ " -") ++ rest)
       ∧ (returns_normally (figure E (_name self) s).1 = false → rest = []))
  ∧ (∀ kw s1, _preprocess E self kwargs s = (Returns kw, s1) → kw = kwargs)
  ∧ (∀ s0 s1, Figure__init__ E s0 = (Returns self, s1) →
       (_unique_name E s0).1 = Returns (_name self))
  ∧ (figure_module_writes_no_file E →
     files (_preprocess E self kwargs s).2 = files s).
Proof.
  split; [|split; [|split; [|split]]].
  - pose proof (figure_emits (_name self) s) as Hfig.
    unfold emits, _preprocess in *. unfold_monad.
    by destruct (figure E (_name self) s) as [[[]|e] s1].
  - eexists. split; [apply psconvert_emits|].
    by intros ->.
  - unfold _preprocess. unfold_monad. intros kw s1.
    destruct (figure E (_name self) s) as [[[]|e] s2]; congruence.
  - unfold Figure__init__. unfold_monad. intros s0 s1.
    destruct (_unique_name E s0) as [[name|e] s2]; simpl; [|done].
    intros [= <- _]. done.
  - intros Hnative. unfold _preprocess, figure. unfold_monad.
    rewrite with_APISession_eq.
    destruct (native_handle E s) as [h|]; simpl; [|done].
    unfold call_module.
    specialize (Hnative (record (created E (Some h)) s) h (_name self)).
    destruct (GMT_Call_Module _ _ _ _ _ _) as [[[|p|p]|] fs]; simpl in *;
      by subst fs.
Qed.

End SessionProperties.

(** ** Figure names *)

Section NameProperties.

Variable E : env.

(** A name that comes back is new among the files that exist, and its
    file exists afterwards. *)
Lemma _mkstemp_inner_fresh dir pre suf seq s file s' :
  _mkstemp_inner E dir pre suf seq s = (Returns file, s') →
  (file ∉ files s) ∧ files s' = {[file]} ∪ files s ∧ log s' = log s.
Proof.
  revert s. induction seq as [|seq IH]; intros s; simpl; [done|].
  destruct (os_create_error E _ _); [done|].
  case_bool_decide as Hin.
  - intros H. apply IH in H. by simpl in H.
  - intros [= <- <-]. done.
Qed.

(** The name is checked against the files that exist, and the file that
    reserved it is removed again before the name is handed out. *)
Lemma _unique_name_forgets s :
  TMP_MAX E ≠ 0%nat →
  os_create_error E (draw s)
    (os_path.abspath (getcwd E)
       (os_path.join os_path.curdir
          ("gmt-python-" +:+ candidate_names E (drawn s) +:+ ""))) = None →
  os_path.abspath (getcwd E)
    (os_path.join os_path.curdir
       ("gmt-python-" +:+ candidate_names E (drawn s) +:+ "")) ∉ files s →
  _unique_name E s
  = (Returns (os_path.split_tail
                (os_path.abspath (getcwd E)
                   (os_path.join os_path.curdir
                      ("gmt-python-" +:+ candidate_names E (drawn s) +:+ "")))),
     draw s).
Proof.
  intros Hmax Hopen Hfresh. unfold _unique_name, NamedTemporaryFile, close.
  destruct (TMP_MAX E) as [|n]; [done|]. unfold_monad. simpl.
  rewrite Hopen.
  rewrite bool_decide_eq_false_2 by done. simpl.
  f_equal. unfold set_files, draw. simpl. f_equal.
  rewrite difference_union_distr_l_L, difference_diag_L, (left_id_L ∅ (∪)).
  by apply difference_disjoint_L, disjoint_singleton_r.
Qed.

(** Two draws of the same random letters give two equal names. *)
Lemma _unique_name_repeats s :
  TMP_MAX E ≠ 0%nat →
  (∀ s' path, os_create_error E s' path = None) →
  candidate_names E (S (drawn s)) = candidate_names E (drawn s) →
  os_path.abspath (getcwd E)
    (os_path.join os_path.curdir
       ("gmt-python-" +:+ candidate_names E (drawn s) +:+ "")) ∉ files s →
  ∃ name s1 s2,
    _unique_name E s = (Returns name, s1)
    ∧ _unique_name E s1 = (Returns name, s2).
Proof.
  intros Hmax Hopen Hsame Hfresh. do 3 eexists. split.
  - by apply _unique_name_forgets.
  - rewrite _unique_name_forgets; simpl; rewrite ?Hsame; done.
Qed.

End NameProperties.

(** C6.  Counterexample to the uniqueness of figure names: when the random
    name generator of [tempfile] draws the same letters twice, two [Figure]
    objects built one after the other carry the same name.  [_unique_name]
    closes, and thereby deletes, the temporary file before it returns, so
    nothing remembers the first name when the second is drawn. *)
Theorem figure_names_can_coincide :
  Figure__init__ Sample.E_repeat Sample.s0
  = (Returns (mkFigure "gmt-python-abcd1234"), mkState [] ∅ 1)
  ∧ Figure__init__ Sample.E_repeat (mkState [] ∅ 1)
    = (Returns (mkFigure "gmt-python-abcd1234"), mkState [] ∅ 2).
Proof. split; vm_compute; reflexivity. Qed.

(** ** The model at work *)

(** With the sample flattening of keywords, a key of the dictionary shows
    as a flag of the argument string. *)
Lemma sample_tokens_hold_keys (kw : Kwargs) k v :
  kw !! k = Some v →
  "-" +:+ k +:+ Sample.format_value v ∈ Sample.tokens kw.
Proof.
  intros Hk. unfold Sample.tokens. apply list_elem_of_fmap.
  exists (k, v). split; [done|].
  rewrite merge_sort_Permutation. by apply elem_of_map_to_list.
Qed.

Example splitext_png : os_path.splitext "maps/fig.1.png" = ("maps/fig.1", ".png").
Proof. reflexivity. Qed.
Example splitext_dotfile : os_path.splitext "dir.d/.bashrc" = ("dir.d/.bashrc", "").
Proof. reflexivity. Qed.
Example splitext_none : os_path.splitext "a.b/c" = ("a.b/c", "").
Proof. reflexivity. Qed.
Example abspath_rel :
  os_path.abspath "/home/u" (os_path.join os_path.curdir "gmt-python-x1")
  = "/home/u/gmt-python-x1".
Proof. reflexivity. Qed.
Example upper_g : upper "g" = "G".
Proof. reflexivity. Qed.
Example pretty_status : pretty (-3) = "-3".
Proof. reflexivity. Qed.
Example call_module_failure :
  call_module Sample.E_fail 4096 "psbasemap" "-R0/5/0/10 -JM" Sample.s0
  = (Raises (AssertionError "Failed with status code 1."),
     mkState [EvCallModule 4096 "psbasemap" 0 "-R0/5/0/10 -JM" (Some 1)] ∅ 0).
Proof. vm_compute. reflexivity. Qed.

Example savefig_png_trace :
  log (savefig Sample.E0 Sample.fig0 "map.png" "portrait" true true ∅ Sample.s0).2
  = [EvCreateSession "gmt-python-session" 2 2 None (Some 4096);
     EvCallModule 4096 "figure" 0 "gmt-python-tmp0 -" (Some 0);
     EvDestroySession 4096;
     EvCreateSession "gmt-python-session" 2 2 None (Some 4099);
     EvCallModule 4099 "psconvert" 0 "-A -Fmap -P -TG" (Some 0);
     EvDestroySession 4099].
Proof. vm_compute. reflexivity. Qed.

Example savefig_failed_figure_call :
  log (savefig Sample.E_fail Sample.fig0 "map.pdf" "landscape" false true ∅
               Sample.s0).2
  = [EvCreateSession "gmt-python-session" 2 2 None (Some 4096);
     EvCallModule 4096 "figure" 0 "gmt-python-tmp0 -" (Some 1);
     EvDestroySession 4096].
Proof. vm_compute. reflexivity. Qed.

Example savefig_duplicate_keyword :
  ∃ msg,
    savefig Sample.E0 Sample.fig0 "map.png" "portrait" false true
            {[ "fmt" := PyStr "j" ]} Sample.s0
    = (Raises (TypeError msg), Sample.s0).
Proof. eexists. vm_compute. reflexivity. Qed.

(** ** Instances of the conditional statements *)

Lemma savefig_selects_documented_code_witness :
  ∃ kw, passes_to_psconvert "map.png" "portrait" true true ∅ kw
        ∧ kw !! "fmt" = Some (PyStr "G").
Proof.
  destruct (savefig_selects_documented_code "map.png" "portrait" true true ∅ "g")
    as (_ & Hex & _ & _).
  - apply (bool_decide_unpack _). vm_compute. exact I.
  - apply Hex.
    + apply (bool_decide_unpack _). vm_compute. exact I.
    + apply (bool_decide_unpack _). vm_compute. exact I.
    + intros _. vm_compute. reflexivity.
Defined.

Lemma savefig_rejects_before_native_call_witness :
  ∃ msg,
    savefig Sample.E0 Sample.fig0 "map.gif" "portrait" false true ∅ Sample.s0
    = (Raises (AssertionError msg), Sample.s0)
    ∧ fails_before_psconvert "map.gif" "portrait" false true ∅
                             (AssertionError msg).
Proof.
  apply savefig_rejects_before_native_call.
  right. apply (bool_decide_unpack _). vm_compute. exact I.
Defined.

Lemma savefig_transparent_only_png_witness :
  ∃ msg, ∀ s,
    savefig Sample.E0 Sample.fig0 "map.pdf" "portrait" true true ∅ s
    = (Raises (AssertionError msg), s).
Proof.
  destruct (savefig_transparent_only_png Sample.E0 Sample.fig0 "map.pdf"
              "portrait" true ∅) as [Hpdf _].
  - apply (bool_decide_unpack _). vm_compute. exact I.
  - destruct Hpdf as (msg & _ & Hraise).
    + apply (bool_decide_unpack _). vm_compute. exact I.
    + exists msg. exact Hraise.
Defined.

Lemma scoped_session_lifetime_witness :
  only_module_calls (λ session, call_module Sample.E0 session "pscoast" "-R0/5/0/10 -JM")
  ∧ ∃ tr,
      emits (with_APISession Sample.E0
               (λ session, call_module Sample.E0 session "pscoast" "-R0/5/0/10 -JM"))
            Sample.s0 tr
      ∧ session_scoped None tr = true.
Proof.
  split; [apply call_module_only_module_calls|].
  destruct (scoped_session_lifetime Sample.E0) as (Hblock & _ & _).
  destruct (Hblock _ (λ session, call_module Sample.E0 session "pscoast" "-R0/5/0/10 -JM")
                   Sample.s0 (call_module_only_module_calls Sample.E0 _ _))
    as (tr & Hem & Hscoped & _).
  exists tr. split; [exact Hem | exact Hscoped].
Defined.

Lemma psconvert_targets_own_figure_witness :
  figure_module_writes_no_file Sample.E0
  ∧ files (_preprocess Sample.E0 Sample.fig0 ∅ Sample.s0).2 = files Sample.s0.
Proof.
  assert (figure_module_writes_no_file Sample.E0) as Hnative.
  { intros s h name. reflexivity. }
  split; [exact Hnative|].
  by apply (psconvert_targets_own_figure Sample.E0 Sample.fig0 ∅ Sample.s0).
Defined.

(** * Further properties of the code *)

(** ** Strings and paths *)

Lemma str_app l1 l2 : str (l1 ++ l2) = str l1 +:+ str l2.
Proof. induction l1 as [|c l1 IH]; simpl; [reflexivity | rewrite IH; reflexivity]. Qed.

Lemma str_chars s : str (chars s) = s.
Proof. apply string_of_list_ascii_of_string. Qed.

Lemma chars_str l : chars (str l) = l.
Proof. apply list_ascii_of_string_of_list_ascii. Qed.

Lemma chars_app s1 s2 : chars (s1 +:+ s2) = (chars s1 ++ chars s2)%list.
Proof.
  induction s1 as [|c s1 IH]; [reflexivity|].
  change (String c s1 +:+ s2) with (String c (s1 +:+ s2)). simpl. by rewrite IH.
Qed.

Lemma str_app_empty s : s +:+ "" = s.
Proof.
  induction s as [|c s IH]; [reflexivity|].
  change (String c s +:+ "") with (String c (s +:+ "")). by rewrite IH.
Qed.

Lemma str_append_assoc s1 s2 s3 : s1 +:+ (s2 +:+ s3) = (s1 +:+ s2) +:+ s3.
Proof.
  induction s1 as [|c s1 IH]; [reflexivity|].
  change (String c (s1 +:+ (s2 +:+ s3)) = String c ((s1 +:+ s2) +:+ s3)).
  by rewrite IH.
Qed.

(** [rfind] finds the last occurrence, or answers the default. *)
Lemma rfind_from_spec c l i last :
  ((c ∉ l) ∧ rfind_from c l i last = last)
  ∨ (∃ l1 l2, l = (l1 ++ c :: l2)%list ∧ (c ∉ l2)
              ∧ rfind_from c l i last = i + Z.of_nat (length l1)).
Proof.
  revert i last. induction l as [|x l IH]; intros i last; simpl.
  - left. split; [apply not_elem_of_nil | done].
  - destruct (IH (i + 1) (if Ascii.eqb x c then i else last))
      as [[Hnot Hr] | (l1 & l2 & -> & Hnot & Hr)].
    + destruct (Ascii.eqb_spec x c) as [->|Hne].
      * right. exists [], l. simpl. split; [done|]. split; [done|]. lia.
      * left. split; [|done]. rewrite not_elem_of_cons. split; [congruence | done].
    + right. exists (x :: l1), l2. simpl. split; [done|]. split; [done|]. lia.
Qed.

Lemma rfind_spec s c :
  ((c ∉ chars s) ∧ rfind s c = -1)
  ∨ (∃ l1 l2, chars s = (l1 ++ c :: l2)%list ∧ (c ∉ l2)
              ∧ rfind s c = Z.of_nat (length l1)).
Proof. unfold rfind. apply rfind_from_spec. Qed.

(** [os.path.splitext] cuts the path in two, and the second half is empty
    or begins with the dot. *)
Lemma splitext_cut p :
  (os_path.splitext p = (p, ""))
  ∨ (∃ l1 l2, chars p = (l1 ++ "."%char :: l2)%list ∧ ("."%char ∉ l2)
              ∧ os_path.splitext p = (str l1, str ("."%char :: l2))).
Proof.
  unfold os_path.splitext, os_path._splitext.
  destruct (rfind_spec p os_path.extsep) as [[_ ->] | (l1 & l2 & Hp & Hnot & ->)].
  - left. assert (-1 ≤ rfind p os_path.sep) as Hsep.
    { destruct (rfind_spec p os_path.sep) as [[_ ->] | (l1 & l2 & _ & _ & ->)]; lia. }
    by rewrite (proj2 (Z.ltb_ge _ _) Hsep).
  - destruct (_ <? _); [|by left].
    destruct (os_path._splitext_loop _ _ _ _) as [r|] eqn:Hloop; [|by left].
    right. exists l1, l2. split; [done|]. split; [done|].
    assert (∀ n fi, os_path._splitext_loop p (Z.of_nat (length l1)) n fi = Some r →
                    r = (str l1, str ("."%char :: l2))) as Hgen.
    { clear Hloop. induction n as [|n IHn]; intros fi; simpl; [done|].
      destruct (negb _); [|apply IHn].
      intros [= <-]. unfold slice_to, slice_from. rewrite Nat2Z.id, Hp.
      by rewrite take_app_length, drop_app_length. }
    f_equal. eapply Hgen, Hloop.
Qed.

Lemma splitext_join p :
  (os_path.splitext p).1 +:+ (os_path.splitext p).2 = p.
Proof.
  destruct (splitext_cut p) as [-> | (l1 & l2 & Hp & _ & ->)]; simpl.
  - apply str_app_empty.
  - rewrite <- (str_chars p), Hp. by rewrite str_app.
Qed.

(** A supported extension is what follows the last dot of the name. *)
Lemma extension_cut fname :
  extension fname ≠ "" →
  (os_path.splitext fname).1 +:+ "." +:+ extension fname = fname.
Proof.
  intros Hext. rewrite <- (splitext_join fname) at 3. f_equal.
  unfold extension in *.
  destruct (splitext_cut fname) as [Heq | (l1 & l2 & _ & _ & Heq)];
    rewrite Heq in *; simpl in *; [done|].
  unfold slice_from. simpl. by rewrite chars_str.
Qed.

(** ** [Figure.savefig]: the complete decision *)

Section SavefigDecision.

#[local] Arguments call_kwargs : simpl never.

(** [savefig] as a decision tree over its arguments. *)
Lemma savefig_with_eq (psconvert : Kwargs → M unit) fname orientation
    transparent crop (kwargs : Kwargs) s :
  savefig_with psconvert fname orientation transparent crop kwargs s
  = if bool_decide (orientation ∈ ["portrait"; "landscape"]) then
      match fmts !! extension fname with
      | None =>
          (Raises (AssertionError
                     ("Unknown extension '." +:+ extension fname +:+ "'")), s)
      | Some code =>
          if transparent && negb (bool_decide (extension fname = "png")) then
            (Raises (AssertionError
                       ("Transparency unavailable for '" +:+ extension fname
                        +:+ "', only for png.")), s)
          else
            match call_kwargs "psconvert"
                    [("prefix", PyStr (os_path.splitext fname).1);
                     ("fmt", PyStr (if transparent then upper code else code));
                     ("crop", PyBool crop);
                     ("portrait", PyBool (bool_decide (orientation = "portrait")))]
                    kwargs s with
            | (Returns kw, _) => psconvert kw s
            | (Raises e, _) => (Raises e, s)
            end
      end
    else
      (Raises (AssertionError
                 ("Invalid orientation '" +:+ orientation +:+ "'.")), s).
Proof.
  unfold savefig_with, extension.
  destruct (os_path.splitext fname) as [prefix ext]; simpl.
  set (ext' := slice_from ext 1).
  destruct (decide (orientation ∈ ["portrait"; "landscape"])) as [Ho|Ho];
    [rewrite !(bool_decide_eq_true_2 _ Ho)
    |rewrite !(bool_decide_eq_false_2 _ Ho); reflexivity].
  destruct (fmts !! ext') as [code|] eqn:Hf.
  2:{ assert (ext' ∉ dom fmts) as Hd by by apply not_elem_of_dom.
      by rewrite (bool_decide_eq_false_2 _ Hd). }
  assert (ext' ∈ dom fmts) as Hd by (apply elem_of_dom; eauto).
  rewrite (bool_decide_eq_true_2 _ Hd). unfold getitem. rewrite Hf.
  destruct transparent; simpl.
  - destruct (decide (ext' = "png")) as [He|He];
      [rewrite !(bool_decide_eq_true_2 _ He)
      |rewrite !(bool_decide_eq_false_2 _ He); reflexivity].
    simpl.
    unfold_monad. simpl.
    destruct (call_kwargs_cases "psconvert"
                [("prefix", PyStr prefix); ("fmt", PyStr (upper code));
                 ("crop", PyBool crop);
                 ("portrait", PyBool (bool_decide (orientation = "portrait")))]
                kwargs) as [[_ [msg Hc]] | [_ Hc]]; by rewrite Hc.
  - unfold_monad. simpl.
    destruct (call_kwargs_cases "psconvert"
                [("prefix", PyStr prefix); ("fmt", PyStr code);
                 ("crop", PyBool crop);
                 ("portrait", PyBool (bool_decide (orientation = "portrait")))]
                kwargs) as [[_ [msg Hc]] | [_ Hc]]; by rewrite Hc.
Qed.

(** X1.  The checks of [savefig] come in a fixed order, each with its own
    message: first the orientation, then the extension, then transparency
    outside png.  A bad orientation is reported even when the extension is
    bad as well. *)
Theorem savefig_error_messages fname orientation transparent crop (kwargs : Kwargs) :
  (orientation ∉ ["portrait"; "landscape"] →
   fails_before_psconvert fname orientation transparent crop kwargs
     (AssertionError ("Invalid orientation '" +:+ orientation +:+ "'.")))
  ∧ (orientation ∈ ["portrait"; "landscape"] →
     extension fname ∉ dom fmts →
     fails_before_psconvert fname orientation transparent crop kwargs
       (AssertionError ("Unknown extension '." +:+ extension fname +:+ "'")))
  ∧ (orientation ∈ ["portrait"; "landscape"] →
     extension fname ∈ dom fmts →
     transparent = true →
     extension fname ≠ "png" →
     fails_before_psconvert fname orientation transparent crop kwargs
       (AssertionError ("Transparency unavailable for '" +:+ extension fname
                        +:+ "', only for png."))).
Proof.
  split; [|split].
  - intros Ho ps s. rewrite savefig_with_eq. by rewrite bool_decide_eq_false_2.
  - intros Ho Hd ps s. rewrite savefig_with_eq, bool_decide_eq_true_2 by done.
    apply not_elem_of_dom in Hd. by rewrite Hd.
  - intros Ho [code Hd]%elem_of_dom -> Hne ps s.
    rewrite savefig_with_eq, bool_decide_eq_true_2 by done.
    rewrite Hd. by rewrite bool_decide_eq_false_2.
Qed.


(** The dictionary that reaches [psconvert] is determined by the call. *)
Lemma passes_to_psconvert_unique fname orientation transparent crop
    (kwargs kw kw' : Kwargs) :
  passes_to_psconvert fname orientation transparent crop kwargs kw →
  passes_to_psconvert fname orientation transparent crop kwargs kw' →
  kw = kw'.
Proof.
  intros Hkw Hkw'.
  pose (probe := λ (k : Kwargs) (s : state),
          if bool_decide (k = kw) then (Returns tt, s)
          else (Raises (KeyError ""), s)).
  pose proof (Hkw probe (mkState [] ∅ 0%nat)) as H1.
  rewrite (Hkw' probe) in H1. unfold probe in H1.
  rewrite (bool_decide_eq_true_2 (kw = kw)) in H1 by done.
  by case_bool_decide.
Qed.

Lemma savefig_passes_exactly fname orientation transparent crop
    (kwargs : Kwargs) code :
  orientation ∈ ["portrait"; "landscape"] →
  fmts !! extension fname = Some code →
  (transparent = true → extension fname = "png") →
  Forall (λ k, k ∉ dom kwargs) ["prefix"; "fmt"; "crop"; "portrait"] →
  passes_to_psconvert fname orientation transparent crop kwargs
    (<["prefix" := PyStr (os_path.splitext fname).1]>
       (<["fmt" := PyStr (if transparent then "G" else code)]>
          (<["crop" := PyBool crop]>
             (<["portrait" := PyBool (bool_decide (orientation = "portrait"))]>
                kwargs)))).
Proof.
  intros Ho Hf Ht Hfree ps s.
  rewrite savefig_with_eq, bool_decide_eq_true_2 by done. rewrite Hf.
  destruct (documented_codes_lowercase _ _ Hf) as [_ Hup].
  assert (transparent && negb (bool_decide (extension fname = "png")) = false)
    as ->.
  { destruct transparent; [|done]. by rewrite bool_decide_eq_true_2 by auto. }
  destruct (call_kwargs_cases "psconvert"
              [("prefix", PyStr (os_path.splitext fname).1);
               ("fmt", PyStr (if transparent then upper code else code));
               ("crop", PyBool crop);
               ("portrait", PyBool (bool_decide (orientation = "portrait")))]
              kwargs) as [[Hdup _] | [_ Hc]]; [done|].
  rewrite Hc. simpl. destruct transparent; [|done]. by rewrite Hup by auto.
Qed.

(** X2.  [savefig] reaches [psconvert] exactly when the orientation is
    valid, the extension is supported, transparency is asked for png only
    and none of [prefix], [fmt], [crop], [portrait] is among the extra
    keywords ([crop] can be among them in this model only: Python binds it
    to the parameter of [savefig]); what it hands over is then the extra
    keywords, untouched, plus the part of the file name before the
    extension, the format code, the crop flag and whether the orientation
    is portrait. *)
Theorem savefig_reaches_psconvert_iff fname orientation transparent crop
    (kwargs kw : Kwargs) :
  passes_to_psconvert fname orientation transparent crop kwargs kw
  ↔ orientation ∈ ["portrait"; "landscape"]
    ∧ (transparent = true → extension fname = "png")
    ∧ Forall (λ k, k ∉ dom kwargs) ["prefix"; "fmt"; "crop"; "portrait"]
    ∧ ∃ code,
        fmts !! extension fname = Some code
        ∧ kw = <["prefix" := PyStr (os_path.splitext fname).1]>
                 (<["fmt" := PyStr (if transparent then "G" else code)]>
                    (<["crop" := PyBool crop]>
                       (<["portrait" :=
                            PyBool (bool_decide (orientation = "portrait"))]>
                          kwargs))).
Proof.
  split.
  - intros Hkw.
    destruct (savefig_with_cases fname orientation transparent crop kwargs)
      as [(msg & Hfail & _) | [(msg & Hfail & _)
                              | (code & kw0 & Ho & Hf & Ht & Hfree & _ & _)]].
    + destruct (passes_excludes_failure _ _ _ _ _ _ _ Hkw Hfail).
    + destruct (passes_excludes_failure _ _ _ _ _ _ _ Hkw Hfail).
    + split; [done|]. split; [done|]. split; [done|]. exists code. split; [done|].
      eapply passes_to_psconvert_unique; [exact Hkw|].
      by apply savefig_passes_exactly.
  - intros (Ho & Ht & Hfree & code & Hf & ->). by apply savefig_passes_exactly.
Qed.

(** X3.  An extra keyword that [savefig] sets itself ([prefix], [fmt] or
    [portrait]) makes the call of [psconvert] a [TypeError]: nothing is
    handed over and no native call is made. *)
Theorem savefig_duplicate_keyword_raises fname orientation transparent crop
    (kwargs : Kwargs) k :
  orientation ∈ ["portrait"; "landscape"] →
  extension fname ∈ dom fmts →
  (transparent = true → extension fname = "png") →
  k ∈ ["prefix"; "fmt"; "portrait"] →
  k ∈ dom kwargs →
  ∃ msg, fails_before_psconvert fname orientation transparent crop kwargs
                                (TypeError msg).
Proof.
  intros Ho Hd Ht Hk Hin.
  destruct (savefig_with_cases fname orientation transparent crop kwargs)
    as [(msg & _ & Hwhy) | [(msg & Hfail & _)
                           | (code & kw0 & _ & _ & _ & Hfree & _)]].
  - exfalso. destruct Hwhy as [Hw|[Hw|[Hw1 Hw2]]]; auto.
  - by exists msg.
  - exfalso. rewrite Forall_forall in Hfree. apply (Hfree k); [|done].
    rewrite !elem_of_cons in Hk. rewrite !elem_of_cons. tauto.
Qed.

(** X4.  The prefix handed to [psconvert] and the extension put the file
    name back together: [prefix + "." + extension] is the name that was
    asked for. *)
Theorem savefig_prefix_and_extension fname orientation transparent crop
    (kwargs kw : Kwargs) :
  passes_to_psconvert fname orientation transparent crop kwargs kw →
  ∃ prefix,
    kw !! "prefix" = Some (PyStr prefix)
    ∧ prefix +:+ "." +:+ extension fname = fname.
Proof.
  intros Hkw.
  destruct (savefig_with_cases fname orientation transparent crop kwargs)
    as [(msg & Hfail & _) | [(msg & Hfail & _)
                            | (code & kw0 & Ho & Hf & Ht & Hfree & _ & _)]].
  - destruct (passes_excludes_failure _ _ _ _ _ _ _ Hkw Hfail).
  - destruct (passes_excludes_failure _ _ _ _ _ _ _ Hkw Hfail).
  - exists (os_path.splitext fname).1. split.
    + rewrite (passes_to_psconvert_unique _ _ _ _ _ _ _ Hkw
                 (savefig_passes_exactly _ _ _ _ _ _ Ho Hf Ht Hfree)).
      by rewrite lookup_insert_eq.
    + apply extension_cut. intros Hempty. rewrite Hempty in Hf.
      vm_compute in Hf. discriminate.
Qed.

(** X5.  A file name without any dot has no extension: [savefig] rejects
    it with the message for the empty extension. *)
Theorem savefig_needs_extension fname orientation transparent crop
    (kwargs : Kwargs) :
  "."%char ∉ chars fname →
  orientation ∈ ["portrait"; "landscape"] →
  fails_before_psconvert fname orientation transparent crop kwargs
    (AssertionError "Unknown extension '.'").
Proof.
  intros Hdot Ho ps s.
  assert (extension fname = "") as Hext.
  { unfold extension.
    destruct (splitext_cut fname) as [-> | (l1 & l2 & Hp & _ & _)]; [done|].
    exfalso. apply Hdot. rewrite Hp. apply elem_of_app. right. by left. }
  rewrite savefig_with_eq, bool_decide_eq_true_2 by done.
  by rewrite Hext.
Qed.

End SavefigDecision.

(** ** What one call says to the library *)

Section NativeCalls.

Variable E : env.

Lemma scoped_call_outcome module args s :
  (with_APISession E (λ session, call_module E session module args) s).1
  = match native_handle E s with
    | None =>
        Raises (AssertionError
                  "Failed creating GMT API pointer using create_session.")
    | Some h =>
        match native_status E (record (created E (Some h)) s) h module args with
        | Some 0 => Returns tt
        | Some code =>
            Raises (AssertionError
                      ("Failed with status code " +:+ pretty code +:+ "."))
        | None => Raises (AssertionError "Failed returning None.")
        end
    end.
Proof.
  rewrite with_APISession_eq.
  destruct (native_handle E s) as [h|]; [|done].
  simpl. apply call_module_outcome.
Qed.

Lemma module_calls_scoped_call_trace module args s :
  module_calls (scoped_call_trace E s module args)
  = match native_handle E s with
    | None => []
    | Some h => [called E (record (created E (Some h)) s) h module args]
    end.
Proof. unfold scoped_call_trace. by destruct (native_handle E s). Qed.

Lemma scoped_call_returns module args s :
  returns_normally
    (with_APISession E (λ session, call_module E session module args) s).1 = true →
  ∃ h, native_handle E s = Some h
       ∧ native_status E (record (created E (Some h)) s) h module args = Some 0.
Proof.
  rewrite scoped_call_outcome.
  destruct (native_handle E s) as [h|]; [|done].
  destruct (native_status _ _ _ _ _) as [[|p|p]|] eqn:Hst; try done. eauto.
Qed.

Lemma figure_returns name s :
  returns_normally (figure E name s).1 = true →
  ∃ h, native_handle E s = Some h
       ∧ native_status E (record (created E (Some h)) s) h "figure"
                       (name +:+ " -") = Some 0.
Proof. apply scoped_call_returns. Qed.

(** X6.  One call of [Figure.psconvert] makes at most two module calls, in
    this order: [figure] with the object's name and [-], then [psconvert]
    with the flattened keywords, the second only after the first answered
    status 0.  It returns normally exactly when both were made and both
    answered 0; when the [figure] step raises, [psconvert] raises the same
    error from the same state, without a second session. *)
Theorem psconvert_native_calls (self : Figure) (kwargs : Kwargs) s :
  ∃ tr,
    emits (psconvert E self kwargs) s tr
    ∧ (module_calls tr = []
       ∨ (∃ h st,
            module_calls tr
            = [EvCallModule h "figure" (GMT_MODULE_CMD (consts E))
                            (_name self +:+ " -") st])
       ∨ (∃ h h' st,
            module_calls tr
            = [EvCallModule h "figure" (GMT_MODULE_CMD (consts E))
                            (_name self +:+ " -") (Some 0);
               EvCallModule h' "psconvert" (GMT_MODULE_CMD (consts E))
                 (build_arg_string E (received E kwargs ∪ psconvert_defaults))
                 st]))
    ∧ (returns_normally (psconvert E self kwargs s).1 = true
       ↔ ∃ h h',
           module_calls tr
           = [EvCallModule h "figure" (GMT_MODULE_CMD (consts E))
                           (_name self +:+ " -") (Some 0);
              EvCallModule h' "psconvert" (GMT_MODULE_CMD (consts E))
                (build_arg_string E (received E kwargs ∪ psconvert_defaults))
                (Some 0)])
    ∧ (∀ e s1, figure E (_name self) s = (Raises e, s1) →
               psconvert E self kwargs s = (Raises e, s1)).
Proof.
  eexists. split; [apply psconvert_emits|].
  unfold module_calls. rewrite filter_app. fold (module_calls).
  rewrite !module_calls_scoped_call_trace.
  assert (∀ e s1, figure E (_name self) s = (Raises e, s1) →
                  psconvert E self kwargs s = (Raises e, s1)) as Hfail.
  { intros e s1 Hfig. rewrite psconvert_eq. unfold_monad. by rewrite Hfig. }
  split; [|split; [|exact Hfail]].
  - destruct (native_handle E s) as [h|] eqn:Hh; [|simpl].
    2:{ destruct (returns_normally _) eqn:Hret; [|by left].
        apply figure_returns in Hret as (h & Hh' & _). congruence. }
    destruct (returns_normally (figure E (_name self) s).1) eqn:Hret.
    + apply figure_returns in Hret as (h0 & Hh0 & Hst).
      rewrite Hh in Hh0. injection Hh0 as <-.
      rewrite module_calls_scoped_call_trace.
      unfold called, encode. rewrite Hst.
      destruct (native_handle E (figure E (_name self) s).2) as [h'|]; simpl;
        [|by right; left; eauto].
      right; right. eauto.
    + right; left. unfold called, encode. simpl. eauto.
  - rewrite psconvert_eq. unfold_monad.
    destruct (figure E (_name self) s) as [[[]|e] s1] eqn:Hfig; simpl.
    + assert (returns_normally (figure E (_name self) s).1 = true) as Hret
          by by rewrite Hfig.
      apply figure_returns in Hret as (h & Hh & Hst).
      rewrite Hh, module_calls_scoped_call_trace. unfold called, encode.
      rewrite Hst. rewrite scoped_call_outcome.
      destruct (native_handle E s1) as [h'|]; simpl.
      * destruct (native_status E (record (created E (Some h')) s1) h' _ _)
          as [[|p|p]|]; simpl;
          (split; [try done; eauto | intros (? & ? & [=]); done]).
      * split; [done | intros (? & ? & [=])].
    + split; [done|].
      destruct (native_handle E s) as [h|]; simpl; intros (? & ? & [=]).
Qed.


Lemma psconvert_returns_calls (self : Figure) (kwargs : Kwargs) s tr :
  emits (psconvert E self kwargs) s tr →
  returns_normally (psconvert E self kwargs s).1 = true →
  ∃ h h',
    module_calls tr
    = [EvCallModule h "figure" (GMT_MODULE_CMD (consts E))
                    (_name self +:+ " -") (Some 0);
       EvCallModule h' "psconvert" (GMT_MODULE_CMD (consts E))
         (build_arg_string E (received E kwargs ∪ psconvert_defaults))
         (Some 0)].
Proof.
  intros Hem. rewrite (emits_unique _ _ _ _ Hem (psconvert_emits E self kwargs s)).
  unfold module_calls. rewrite filter_app. fold (module_calls).
  rewrite psconvert_eq. unfold_monad.
  destruct (figure E (_name self) s) as [[[]|e] s1] eqn:Hfig; simpl; [|done].
  assert (returns_normally (figure E (_name self) s).1 = true) as Hret
      by by rewrite Hfig.
  apply figure_returns in Hret as (h & Hh & Hst).
  rewrite !module_calls_scoped_call_trace, Hh. unfold called, encode.
  rewrite Hst. intros (h' & Hh' & Hst')%scoped_call_returns.
  rewrite Hh', Hst'. eauto.
Qed.

(** X7.  [Figure.savefig] talks to the library only through
    [Figure.psconvert]: its native trace obeys the session discipline, and
    a call that returns normally has made exactly the two module calls,
    [figure] and [psconvert], both answered with status 0, the second with
    the flattened keywords [savefig] handed over. *)
Theorem savefig_native_calls (self : Figure) fname orientation transparent
    crop (kwargs : Kwargs) s :
  ∃ tr,
    emits (savefig E self fname orientation transparent crop kwargs) s tr
    ∧ session_scoped None tr = true
    ∧ (returns_normally
         (savefig E self fname orientation transparent crop kwargs s).1 = true →
       ∃ kw h h',
         passes_to_psconvert fname orientation transparent crop kwargs kw
         ∧ module_calls tr
           = [EvCallModule h "figure" (GMT_MODULE_CMD (consts E))
                           (_name self +:+ " -") (Some 0);
              EvCallModule h' "psconvert" (GMT_MODULE_CMD (consts E))
                (build_arg_string E (received E kw ∪ psconvert_defaults))
                (Some 0)]).
Proof.
  unfold savefig.
  destruct (savefig_with_cases fname orientation transparent crop kwargs)
    as [(msg & Hfail & _) | [(msg & Hfail & _)
                            | (code & kw & _ & _ & _ & _ & _ & Hpass)]].
  - exists []. unfold emits. rewrite Hfail. simpl.
    split; [by rewrite app_nil_r|]. split; done.
  - exists []. unfold emits. rewrite Hfail. simpl.
    split; [by rewrite app_nil_r|]. split; done.
  - eexists. unfold emits. rewrite Hpass.
    split; [apply psconvert_emits|]. split.
    + rewrite session_scoped_app by apply scoped_call_trace_scoped.
      destruct (returns_normally _); [apply scoped_call_trace_scoped | done].
    + intros Hret.
      destruct (psconvert_returns_calls self kw s _ (psconvert_emits E self kw s) Hret)
        as (h & h' & Hcalls).
      exists kw, h, h'. split; [exact Hpass | exact Hcalls].
Qed.

End NativeCalls.

(** ** Temporary names *)

Section TemporaryNames.

Variable E : env.

(** [_mkstemp_inner] settles on the first random name, in drawing order,
    whose file does not exist; it gives up when [seq] names in a row are
    taken, and passes on the first other error of [os.open]. *)
Lemma _mkstemp_inner_spec dir pre suf seq s :
  match _mkstemp_inner E dir pre suf seq s with
  | (Returns file, s') =>
      ∃ k, (drawn s ≤ k < drawn s + seq)%nat
           ∧ file = candidate_path E dir pre suf k
           ∧ (file ∉ files s)
           ∧ (∀ j, (drawn s ≤ j < k)%nat →
                   candidate_path E dir pre suf j ∈ files s)
           ∧ s' = mkState (log s) ({[file]} ∪ files s) (S k)
  | (Raises e, s') =>
      (e = FileExistsError "No usable temporary file name found"
       ∧ (∀ j, (drawn s ≤ j < drawn s + seq)%nat →
               candidate_path E dir pre suf j ∈ files s)
       ∧ s' = mkState (log s) (files s) (drawn s + seq))
      ∨ (∃ k, (drawn s ≤ k < drawn s + seq)%nat
              ∧ os_create_error E (mkState (log s) (files s) (S k))
                  (candidate_path E dir pre suf k) = Some e
              ∧ (∀ j, (drawn s ≤ j < k)%nat →
                      candidate_path E dir pre suf j ∈ files s)
              ∧ s' = mkState (log s) (files s) (S k))
  end.
Proof.
  revert s. induction seq as [|seq IH]; intros s; simpl.
  - left. split; [done|]. split; [intros j Hj; lia|]. destruct s; simpl.
    by rewrite Nat.add_0_r.
  - fold (candidate_path E dir pre suf (drawn s)).
    destruct (os_create_error E (draw s) _) as [e|] eqn:Hopen.
    { right. exists (drawn s). split; [lia|]. split; [exact Hopen|].
      split; [intros j Hj; lia | done]. }
    case_bool_decide as Hin.
    + specialize (IH (draw s)).
      destruct (_mkstemp_inner E dir pre suf seq (draw s)) as [[file|e] s'];
        simpl in IH.
      * destruct IH as (k & Hk & -> & Hfresh & Hbefore & ->).
        exists k. split; [lia|]. split; [done|]. split; [done|]. split; [|done].
        intros j Hj. destruct (decide (j = drawn s)) as [->|]; [done|].
        apply Hbefore. lia.
      * destruct IH as [(-> & Hall & ->) | (k & Hk & Hopen' & Hbefore & ->)].
        -- left. split; [done|]. split.
           ++ intros j Hj. destruct (decide (j = drawn s)) as [->|]; [done|].
              apply Hall. lia.
           ++ f_equal. lia.
        -- right. exists k. split; [lia|]. split; [exact Hopen'|].
           split; [|done].
           intros j Hj. destruct (decide (j = drawn s)) as [->|]; [done|].
           apply Hbefore. lia.
    + exists (drawn s). split; [lia|]. split; [done|]. split; [done|].
      split; [intros j Hj; lia | done].
Qed.

(** [_unique_name] in full: the base name of the first random path that
    does not exist yet, with only random names consumed. *)
Lemma _unique_name_search s :
  match _unique_name E s with
  | (Returns name, s') =>
      ∃ k, (drawn s ≤ k < drawn s + TMP_MAX E)%nat
           ∧ (candidate_path E os_path.curdir "gmt-python-" "" k ∉ files s)
           ∧ (∀ j, (drawn s ≤ j < k)%nat →
                   candidate_path E os_path.curdir "gmt-python-" "" j ∈ files s)
           ∧ name = os_path.split_tail
                      (candidate_path E os_path.curdir "gmt-python-" "" k)
           ∧ s' = mkState (log s) (files s) (S k)
  | (Raises e, s') =>
      (e = FileExistsError "No usable temporary file name found"
       ∧ (∀ j, (drawn s ≤ j < drawn s + TMP_MAX E)%nat →
               candidate_path E os_path.curdir "gmt-python-" "" j ∈ files s)
       ∧ s' = mkState (log s) (files s) (drawn s + TMP_MAX E))
      ∨ (∃ k, (drawn s ≤ k < drawn s + TMP_MAX E)%nat
              ∧ os_create_error E (mkState (log s) (files s) (S k))
                  (candidate_path E os_path.curdir "gmt-python-" "" k) = Some e
              ∧ (∀ j, (drawn s ≤ j < k)%nat →
                      candidate_path E os_path.curdir "gmt-python-" "" j
                      ∈ files s)
              ∧ s' = mkState (log s) (files s) (S k))
  end.
Proof.
  unfold _unique_name, NamedTemporaryFile, close. unfold_monad.
  pose proof (_mkstemp_inner_spec os_path.curdir "gmt-python-" "" (TMP_MAX E) s)
    as H.
  destruct (_mkstemp_inner E os_path.curdir "gmt-python-" "" (TMP_MAX E) s)
    as [[file|e] s1]; simpl; [|exact H].
  destruct H as (k & Hk & -> & Hfresh & Hbefore & ->).
  exists k. repeat (split; [done|]).
  unfold set_files. simpl. f_equal.
  rewrite difference_union_distr_l_L, difference_diag_L, (left_id_L ∅ (∪)).
  by apply difference_disjoint_L, disjoint_singleton_r.
Qed.

(** X8.  [_unique_name] leaves nothing behind: whether it returns or
    raises, the files on disk and the log of native calls are as before.
    The name it returns is the base name of a path that did not exist when
    it was drawn, found within [tempfile.TMP_MAX] draws (the value of the
    platform).  When it raises, either [TMP_MAX] random names in a row were
    taken and the error is the [FileExistsError] of [tempfile], or the
    error is the one [os.open] raised for the name it was trying (a
    directory that is missing or cannot be written). *)
Theorem _unique_name_leaves_nothing s :
  files (_unique_name E s).2 = files s
  ∧ log (_unique_name E s).2 = log s
  ∧ (∀ name, (_unique_name E s).1 = Returns name →
       ∃ k, (drawn s ≤ k < drawn s + TMP_MAX E)%nat
            ∧ (candidate_path E os_path.curdir "gmt-python-" "" k ∉ files s)
            ∧ name = os_path.split_tail
                       (candidate_path E os_path.curdir "gmt-python-" "" k))
  ∧ (∀ e, (_unique_name E s).1 = Raises e →
       (e = FileExistsError "No usable temporary file name found"
        ∧ ∀ j, (drawn s ≤ j < drawn s + TMP_MAX E)%nat →
               candidate_path E os_path.curdir "gmt-python-" "" j ∈ files s)
       ∨ (∃ k, (drawn s ≤ k < drawn s + TMP_MAX E)%nat
               ∧ os_create_error E (mkState (log s) (files s) (S k))
                   (candidate_path E os_path.curdir "gmt-python-" "" k)
                 = Some e
               ∧ ∀ j, (drawn s ≤ j < k)%nat →
                      candidate_path E os_path.curdir "gmt-python-" "" j
                      ∈ files s)).
Proof.
  pose proof (_unique_name_search s) as H.
  destruct (_unique_name E s) as [[name|e] s']; simpl.
  - destruct H as (k & Hk & Hfresh & _ & -> & ->). simpl.
    split; [done|]. split; [done|]. split; [|done].
    intros ? [= <-]. eauto.
  - split; [|split; [|split; [done|]]].
    + by destruct H as [(_ & _ & ->) | (k & _ & _ & _ & ->)].
    + by destruct H as [(_ & _ & ->) | (k & _ & _ & _ & ->)].
    + intros ? [= <-].
      destruct H as [(-> & Hall & _) | (k & Hk & Hopen & Hbefore & _)];
        [left | right]; eauto.
Qed.

End TemporaryNames.

(** ** The shape of a figure name *)

Lemma last_split_unique (c : ascii) l1 l2 l1' l2' :
  c ∉ l2 → c ∉ l2' →
  (l1 ++ c :: l2 = l1' ++ c :: l2')%list →
  l1 = l1' ∧ l2 = l2'.
Proof.
  intros H2 H2'. revert l1'.
  induction l1 as [|x l1 IH]; intros [|x' l1']; simpl; intros Heq.
  - by injection Heq.
  - injection Heq as <- ->. exfalso. apply H2, elem_of_app. right. by left.
  - injection Heq as -> <-. exfalso. apply H2', elem_of_app. right. by left.
  - injection Heq as <- Heq. by destruct (IH _ Heq) as [-> ->].
Qed.

Lemma split_tail_app P n :
  closed_prefix P → os_path.sep ∉ chars n → os_path.split_tail (P +:+ n) = n.
Proof.
  intros HP Hn. unfold os_path.split_tail, slice_from.
  destruct (rfind_spec (P +:+ n) os_path.sep)
    as [[Hnot ->] | (l1 & l2 & Hc & Hnot & ->)];
    rewrite chars_app in *.
  - destruct HP as [HP | [P0 HP]]; rewrite HP in *.
    + simpl. apply str_chars.
    + exfalso. apply Hnot. rewrite !elem_of_app. left. right. by left.
  - destruct HP as [HP | [P0 HP]]; rewrite HP in *.
    + simpl in Hc. exfalso. apply Hn. rewrite Hc, elem_of_app. right. by left.
    + rewrite <- app_assoc in Hc. simpl in Hc.
      apply last_split_unique in Hc as [-> <-]; [|done..].
      replace (Z.to_nat (Z.of_nat (length l1) + 1)) with (length (l1 ++ [os_path.sep]))
        by (rewrite length_app; simpl; lia).
      rewrite drop_app_length. apply str_chars.
Qed.

Lemma split_sep_app l1 l2 cur :
  os_path.split_sep (l1 ++ os_path.sep :: l2) cur
  = (os_path.split_sep l1 cur ++ os_path.split_sep l2 [])%list.
Proof.
  revert cur. induction l1 as [|c l1 IH]; intros cur; simpl; [done|].
  destruct (Ascii.eqb c os_path.sep); simpl; by rewrite IH.
Qed.

Lemma split_sep_none l cur :
  os_path.sep ∉ l → os_path.split_sep l cur = [str (rev cur ++ l)].
Proof.
  revert cur. induction l as [|c l IH]; intros cur Hl; simpl.
  - by rewrite app_nil_r.
  - apply not_elem_of_cons in Hl as [Hc Hl].
    destruct (Ascii.eqb_spec c os_path.sep) as [->|_]; [done|].
    rewrite IH by done. simpl. by rewrite <- app_assoc.
Qed.

Lemma normpath_comps_last i xs n acc :
  n ≠ "" → n ≠ "." → n ≠ ".." →
  ∃ acc', os_path.normpath_comps i (xs ++ [n]) acc = rev (n :: acc').
Proof.
  intros H1 H2 H3. revert acc. induction xs as [|x xs IH]; intros acc; simpl.
  - apply String.eqb_neq in H1, H2, H3. rewrite H1, H2, H3. simpl. eauto.
  - destruct (_ || _); [apply IH|]. destruct (_ || _); apply IH.
Qed.

Lemma concat_last ys n :
  ∃ P, String.concat "/" (ys ++ [n]) = P +:+ n ∧ closed_prefix P.
Proof.
  induction ys as [|y ys (P & HP & Hcl)]; simpl.
  - exists "". split; [done | by left].
  - rewrite HP. destruct (ys ++ [n])%list eqn:Hys; [by destruct ys|].
    exists (y +:+ "/" +:+ P). split.
    + by rewrite <- !str_append_assoc.
    + right. rewrite !chars_app. destruct Hcl as [-> | [P0 ->]].
      * exists (chars y). by rewrite app_nil_r.
      * exists (chars y ++ os_path.sep :: P0)%list. simpl.
        by rewrite <- app_assoc.
Qed.

Lemma normpath_last w n :
  (∃ l1, chars w = (l1 ++ [os_path.sep])%list) →
  os_path.sep ∉ chars n → n ≠ "" → n ≠ "." → n ≠ ".." →
  ∃ P, os_path.normpath (w +:+ n) = P +:+ n ∧ closed_prefix P.
Proof.
  intros [l1 Hw] Hn H1 H2 H3. unfold os_path.normpath.
  assert (∀ P : string, String.eqb (P +:+ n) "" = false) as Hne.
  { intros P. apply String.eqb_neq. intros Heq.
    apply (f_equal chars) in Heq. rewrite chars_app in Heq.
    apply app_eq_nil in Heq as [_ Heq]. apply H1.
    by rewrite <- (str_chars n), Heq. }
  rewrite Hne.
  set (i := if os_path.startswith_seps _ 1 then _ else _).
  rewrite chars_app, Hw, <- app_assoc. simpl. rewrite split_sep_app.
  rewrite (split_sep_none (chars n)) by done. simpl. rewrite str_chars.
  destruct (normpath_comps_last i (os_path.split_sep l1 []) n [] H1 H2 H3)
    as [acc' ->].
  simpl. destruct (concat_last (rev acc') n) as (P & -> & Hcl).
  rewrite str_append_assoc, Hne.
  eexists. split; [done|].
  unfold closed_prefix. rewrite chars_app, chars_str.
  destruct Hcl as [-> | [P0 ->]].
  - rewrite app_nil_r. destruct i as [|i]; [by left|]. right.
    exists (replicate i os_path.sep). by rewrite replicate_S_end.
  - right. exists (replicate i os_path.sep ++ P0)%list. by rewrite app_assoc.
Qed.

(** The base name of the temporary file is the prefix followed by the
    random part. *)
Lemma candidate_path_tail (E : env) k :
  os_path.sep ∉ chars (candidate_names E k) →
  os_path.split_tail (candidate_path E os_path.curdir "gmt-python-" "" k)
  = "gmt-python-" +:+ candidate_names E k.
Proof.
  intros Hc. unfold candidate_path. rewrite str_app_empty.
  set (n := "gmt-python-" +:+ candidate_names E k).
  assert (os_path.sep ∉ chars n) as Hn.
  { unfold n. rewrite chars_app. rewrite not_elem_of_app. split; [|done].
    apply (bool_decide_unpack _). vm_compute. exact I. }
  assert (os_path.join os_path.curdir n = "./" +:+ n) as -> by reflexivity.
  unfold os_path.abspath.
  assert (os_path.isabs ("./" +:+ n) = false) as -> by reflexivity.
  assert (∃ w, os_path.join (getcwd E) ("./" +:+ n) = w +:+ n
               ∧ ∃ l1, chars w = (l1 ++ [os_path.sep])%list) as (w & -> & Hw).
  { unfold os_path.join.
    assert (os_path.isabs ("./" +:+ n) = false) as -> by reflexivity.
    destruct (_ || _).
    - exists (getcwd E +:+ "./"). split; [by rewrite <- str_append_assoc|].
      exists (chars (getcwd E) ++ ["."%char])%list. rewrite chars_app. simpl.
      by rewrite <- app_assoc.
    - exists (getcwd E +:+ "/./"). split; [by rewrite <- !str_append_assoc|].
      exists (chars (getcwd E) ++ ["/"%char; "."%char])%list. rewrite chars_app.
      simpl. by rewrite <- app_assoc. }
  destruct (normpath_last w n Hw Hn) as (P & -> & Hcl); try done.
  by apply split_tail_app.
Qed.

Section FigureNames.

Variable E : env.

Lemma _unique_name_returns s name s' :
  (∀ n, os_path.sep ∉ chars (candidate_names E n)) →
  _unique_name E s = (Returns name, s') →
  ∃ k, (drawn s ≤ k)%nat
       ∧ name = "gmt-python-" +:+ candidate_names E k
       ∧ drawn s' = S k.
Proof.
  intros Hsep Hrun. pose proof (_unique_name_search E s) as H.
  rewrite Hrun in H. destruct H as (k & Hk & _ & _ & -> & ->).
  exists k. split; [lia|]. split; [|done]. by apply candidate_path_tail.
Qed.


(** X10.  As long as the random generator never repeats a name, figures
    get different names: a [Figure] built after another one, in a state
    that has consumed at least the random names the first one did, carries
    a different name. *)
Theorem figure_names_differ_when_draws_differ s1 s1' s2 s2' (f1 f2 : Figure) :
  (∀ n, os_path.sep ∉ chars (candidate_names E n)) →
  (∀ i j, candidate_names E i = candidate_names E j → i = j) →
  Figure__init__ E s1 = (Returns f1, s1') →
  (drawn s1' ≤ drawn s2)%nat →
  Figure__init__ E s2 = (Returns f2, s2') →
  _name f1 ≠ _name f2.
Proof.
  intros Hsep Hinj Hf1 Hlater Hf2 Heq.
  assert (∀ s f s', Figure__init__ E s = (Returns f, s') →
                    _unique_name E s = (Returns (_name f), s')) as Hinit.
  { intros s f s'. unfold Figure__init__. unfold_monad.
    destruct (_unique_name E s) as [[name|e] s0]; [|done]. by intros [= <- <-]. }
  apply Hinit, (_unique_name_returns _ _ _ Hsep) in Hf1 as (k1 & _ & Hn1 & Hd1).
  apply Hinit, (_unique_name_returns _ _ _ Hsep) in Hf2 as (k2 & Hk2 & Hn2 & _).
  rewrite Hn1, Hn2 in Heq. apply String.app_inj in Heq.
  apply Hinj in Heq. lia.
Qed.

End FigureNames.

(** ** Previews *)

Lemma join_suffix a b : ∃ P, os_path.join a b = P +:+ b.
Proof.
  unfold os_path.join. destruct (os_path.isabs b); [by exists ""|].
  destruct (_ || _); [by exists a|].
  exists (a +:+ "/"). by rewrite <- str_append_assoc.
Qed.

Lemma join_app a name rest :
  os_path.join a ((name +:+ "-preview") +:+ rest)
  = os_path.join a (name +:+ "-preview") +:+ rest.
Proof.
  unfold os_path.join.
  assert (os_path.isabs ((name +:+ "-preview") +:+ rest)
          = os_path.isabs (name +:+ "-preview")) as -> by by destruct name.
  destruct (os_path.isabs _); [done|].
  destruct (_ || _); by rewrite <- !str_append_assoc.
Qed.

Lemma split_before l m1 m2 a rest (c : ascii) :
  l = (m1 ++ c :: m2)%list → l = (a ++ rest)%list → c ∉ rest →
  (length m1 < length a)%nat.
Proof.
  intros H1 H2 Hnot. destruct (decide (length m1 < length a)%nat) as [|Hge]; [done|].
  exfalso. apply Hnot.
  assert (l !! length m1 = Some c) as Hl.
  { rewrite H1. by apply list_lookup_middle. }
  rewrite H2, lookup_app_r in Hl by lia.
  by apply list_elem_of_lookup_2 in Hl.
Qed.

Lemma _splitext_loop_found p d (c : ascii) idx n fi :
  chars p !! idx = Some c → c ≠ "."%char →
  (fi ≤ idx < fi + n)%nat →
  os_path._splitext_loop p d n (Z.of_nat fi) = Some (slice_to p d, slice_from p d).
Proof.
  intros Hc Hne. revert fi. induction n as [|n IH]; intros fi Hfi; [lia|]. simpl.
  destruct (negb _) eqn:Htest; [done|].
  replace (Z.of_nat fi + 1) with (Z.of_nat (S fi)) by lia. apply IH.
  destruct (decide (fi = idx)) as [->|]; [|lia]. exfalso.
  apply negb_false_iff, String.eqb_eq in Htest. unfold slice in Htest.
  replace (Z.to_nat (Z.of_nat idx + 1) - Z.to_nat (Z.of_nat idx))%nat with 1%nat
    in Htest by lia.
  rewrite Nat2Z.id in Htest.
  apply list_elem_of_split_length in Hc as (l1 & l2 & Hp & ->).
  rewrite Hp, drop_app_length in Htest. simpl in Htest.
  unfold os_path.extsep in Htest. congruence.
Qed.

(** [splitext] finds the extension once the file name holds something
    other than dots before its last dot. *)
Lemma splitext_found p a (c : ascii) b l2 :
  chars p = (a ++ c :: b ++ "."%char :: l2)%list →
  c ≠ "."%char →
  os_path.sep ∉ (c :: b ++ "."%char :: l2)%list →
  "."%char ∉ l2 →
  os_path.splitext p = (str (a ++ c :: b), str ("."%char :: l2)).
Proof.
  intros Hp Hc Hsep Hdot.
  assert (chars p = ((a ++ c :: b) ++ "."%char :: l2)%list) as Hp'
    by by rewrite <- app_assoc.
  unfold os_path.splitext, os_path._splitext.
  destruct (rfind_spec p os_path.extsep) as [[Hnot _] | (l1 & l2' & Hd & Hnot & ->)].
  { exfalso. apply Hnot. rewrite Hp'. apply elem_of_app. right. by left. }
  rewrite Hp' in Hd. apply last_split_unique in Hd as [<- <-]; [|done..].
  assert (∃ fi : nat, (rfind p os_path.sep + 1 = Z.of_nat fi) ∧ (fi ≤ length a)%nat)
    as (fi & Hfi & Hle).
  { destruct (rfind_spec p os_path.sep) as [[_ ->] | (m1 & m2 & Hm & _ & ->)].
    - exists 0%nat. split; [done | lia].
    - exists (S (length m1)). split; [lia|].
      by apply (split_before (chars p) m1 m2 a _ os_path.sep Hm Hp). }
  assert ((rfind p os_path.sep <? Z.of_nat (length (a ++ c :: b))) = true) as ->.
  { apply Z.ltb_lt. rewrite length_app. simpl. lia. }
  rewrite Hfi.
  rewrite (_splitext_loop_found p _ c (length a)).
  - unfold slice_to, slice_from. rewrite Nat2Z.id, Hp'.
    by rewrite take_app_length, drop_app_length.
  - rewrite Hp. by apply list_lookup_middle.
  - done.
  - rewrite length_app. simpl. lia.
Qed.

Lemma splitext_preview X :
  os_path.splitext (X +:+ "-preview.png") = (X +:+ "-preview", ".png").
Proof.
  rewrite (splitext_found (X +:+ "-preview.png") (chars X) "-"%char
             (chars "preview") (chars "png")).
  - f_equal. rewrite str_app, str_chars. reflexivity.
  - rewrite chars_app. reflexivity.
  - done.
  - apply (bool_decide_unpack _). vm_compute. exact I.
  - apply (bool_decide_unpack _). vm_compute. exact I.
Qed.

Lemma preview_name_split tmpdir name :
  os_path.splitext (os_path.join tmpdir (name +:+ "-preview.png"))
  = (os_path.join tmpdir (name +:+ "-preview"), ".png").
Proof.
  assert (name +:+ "-preview.png" = (name +:+ "-preview") +:+ ".png") as ->
    by by rewrite <- str_append_assoc.
  rewrite join_app.
  destruct (join_suffix tmpdir (name +:+ "-preview")) as [P ->].
  rewrite (str_append_assoc P), <- str_append_assoc.
  apply (splitext_preview (P +:+ name)).
Qed.

Section PreviewProperties.

Variable H : host.

(** The keywords of a preview. *)
Lemma preview_savefig (self : Figure) tmpdir (args : Kwargs) s :
  Forall (λ k, k ∉ dom args) ["prefix"; "fmt"; "crop"; "portrait"] →
  savefig (host_env H) self
          (os_path.join tmpdir (_name self +:+ "-preview.png"))
          "portrait" false true args s
  = psconvert (host_env H) self
      (<["prefix" := PyStr (os_path.join tmpdir (_name self +:+ "-preview"))]>
         (<["fmt" := PyStr "g"]>
            (<["crop" := PyBool true]>
               (<["portrait" := PyBool true]> args)))) s.
Proof.
  intros Hfree. unfold savefig.
  pose proof (savefig_passes_exactly
                (os_path.join tmpdir (_name self +:+ "-preview.png"))
                "portrait" false true args "g") as Hpass.
  unfold extension in Hpass. rewrite preview_name_split in Hpass.
  apply Hpass; try done. by left.
Qed.

Lemma preview_args_free (dpi : pyval) (anti_alias : bool) :
  Forall (λ k : string,
            k ∉ dom (if anti_alias
                     then <["Qt" := PyInt 4]>
                            (<["Qg" := PyInt 4]> ({[ "dpi" := dpi ]} : Kwargs))
                     else ({[ "dpi" := dpi ]} : Kwargs)))
         ["prefix"; "fmt"; "crop"; "portrait"].
Proof.
  destruct anti_alias; repeat constructor;
    intros [v Hv]%elem_of_dom; by simplify_map_eq.
Qed.

(** X11.  A preview is one [psconvert] in a fresh temporary directory,
    followed by reading the file back: the keywords are the prefix
    [<tmpdir>/<name>-preview], format [g] (png), cropping and portrait
    switched on, the resolution asked for and, with anti-aliasing, [Qg] and
    [Qt] set to 4.  None of the argument checks of [savefig] can fail on the
    way. *)
Theorem _png_preview_is_psconvert (self : Figure) (dpi : pyval)
    (anti_alias : bool) s :
  _png_preview H self dpi anti_alias s
  = with_TemporaryDirectory H (λ tmpdir,
      io_bind
        (lift (psconvert (host_env H) self
                 (<["prefix" :=
                      PyStr (os_path.join tmpdir (_name self +:+ "-preview"))]>
                    (<["fmt" := PyStr "g"]>
                       (<["crop" := PyBool true]>
                          (<["portrait" := PyBool true]>
                             (if anti_alias
                              then <["Qt" := PyInt 4]>
                                     (<["Qg" := PyInt 4]>
                                        ({[ "dpi" := dpi ]} : Kwargs))
                              else ({[ "dpi" := dpi ]} : Kwargs))))))))
        (λ _, open_read H
                (os_path.join tmpdir (_name self +:+ "-preview.png")))) s.
Proof.
  unfold _png_preview, with_TemporaryDirectory.
  destruct (mkdtemp H s) as [[tmpdir|e] s1]; [|done].
  unfold io_bind, lift.
  by rewrite (preview_savefig self tmpdir _ s1 (preview_args_free dpi anti_alias)).
Qed.


Lemma rmtree_removes tmpdir s p :
  p ∈ files (rmtree H tmpdir s) →
  under (os_path.abspath (getcwd (host_env H)) tmpdir) p = false ∧ p ∈ files s.
Proof. unfold rmtree. simpl. by rewrite elem_of_filter. Qed.

(** X12.  A preview never leaves its temporary directory behind: whether
    it returns or raises, no path at or below the directory it created
    exists afterwards.  It returns bytes only when the directory could be
    created, [savefig] returned normally and the png file existed when it
    was read; the bytes are the ones read before the directory is
    removed. *)
Theorem _png_preview_cleans_up (self : Figure) (dpi : pyval)
    (anti_alias : bool) s :
  (∀ tmpdir s1 p,
     mkdtemp H s = (Returns tmpdir, s1) →
     p ∈ files (_png_preview H self dpi anti_alias s).2 →
     under (os_path.abspath (getcwd (host_env H)) tmpdir) p = false)
  ∧ (∀ e s1,
       mkdtemp H s = (Raises e, s1) →
       _png_preview H self dpi anti_alias s = (Err (Raised e), s1))
  ∧ (∀ png s',
       _png_preview H self dpi anti_alias s = (Ok png, s') →
       ∃ tmpdir s1 s2,
         mkdtemp H s = (Returns tmpdir, s1)
         ∧ savefig (host_env H) self
             (os_path.join tmpdir (_name self +:+ "-preview.png"))
             "portrait" false true
             (if anti_alias
              then <["Qt" := PyInt 4]>
                     (<["Qg" := PyInt 4]> ({[ "dpi" := dpi ]} : Kwargs))
              else ({[ "dpi" := dpi ]} : Kwargs)) s1
           = (Returns tt, s2)
         ∧ os_path.abspath (getcwd (host_env H))
             (os_path.join tmpdir (_name self +:+ "-preview.png")) ∈ files s2
         ∧ png = read_bytes H s2
                   (os_path.join tmpdir (_name self +:+ "-preview.png"))
         ∧ s' = rmtree H tmpdir s2).
Proof.
  unfold _png_preview, with_TemporaryDirectory, io_bind, lift, open_read.
  destruct (mkdtemp H s) as [[tmpdir|e] s1].
  - split; [|split; [by intros ? ? [=] |]].
    + intros ? ? p [= <- <-].
      destruct (savefig _ _ _ _ _ _ _ s1) as [[[]|e] s2];
        [case_bool_decide|]; intros Hp; by apply rmtree_removes in Hp as [? _].
    + intros png s'.
      destruct (savefig _ _ _ _ _ _ _ s1) as [[[]|e] s2] eqn:Hsave; [|done].
      case_bool_decide as Hin; [|done]. intros [= <- <-].
      exists tmpdir, s1, s2. by rewrite Hsave.
  - split; [by intros ? ? ? [=] |]. split; [by intros ? ? [= <- <-] | done].
Qed.

(** X13.  [show] needs IPython: when [IPython.display.Image] could not be
    imported it never returns an image.  The preview is rendered all the
    same, so the state is the one the preview left, and after a successful
    preview the error is the [TypeError] of calling [None]. *)
Theorem show_needs_IPython (self : Figure) (dpi width : pyval) s :
  Image_imported H = false →
  (show H self dpi width s).2 = (_png_preview H self dpi true s).2
  ∧ (∀ img, (show H self dpi width s).1 ≠ Ok img)
  ∧ (∀ png, (_png_preview H self dpi true s).1 = Ok png →
       (show H self dpi width s).1
       = Err (Raised (TypeError "'NoneType' object is not callable"))).
Proof.
  intros Hno. unfold show, io_bind. rewrite Hno.
  destruct (_png_preview H self dpi true s) as [[png|e] s']; simpl; done.
Qed.

End PreviewProperties.

(** ** Previews at work *)

Example show_with_IPython :
  (show Sample2.H1 Sample.fig0 (PyInt 300) (PyInt 500) Sample.s0).1
  = Ok (mkImage "PNG" (PyInt 500))
  ∧ module_calls
      (log (show Sample2.H1 Sample.fig0 (PyInt 300) (PyInt 500) Sample.s0).2)
    = [EvCallModule 4096 "figure" 0 "gmt-python-tmp0 -" (Some 0);
       EvCallModule 4099 "psconvert" 0
         "-A -E300 -F/tmp/tmpa/gmt-python-tmp0-preview -P -Qg4 -Qt4 -Tg" (Some 0)]
  ∧ files (show Sample2.H1 Sample.fig0 (PyInt 300) (PyInt 500) Sample.s0).2 = ∅.
Proof. repeat split; vm_compute; reflexivity. Qed.

Example preview_file_missing :
  (_repr_png_ (mkHost Sample.E0 "/tmp" (λ _ _, "") true) Sample.fig0 Sample.s0).1
  = Err (FileNotFoundError "/tmp/tmptmp0/gmt-python-tmp0-preview.png").
Proof. vm_compute. reflexivity. Qed.

(** ** Instances of the further conditional statements *)

Lemma savefig_error_messages_witness :
  fails_before_psconvert "map.gif" "upside-down" true true ∅
    (AssertionError "Invalid orientation 'upside-down'.")
  ∧ fails_before_psconvert "map.gif" "landscape" true true ∅
      (AssertionError "Unknown extension '.gif'")
  ∧ fails_before_psconvert "map.jpg" "landscape" true true ∅
      (AssertionError "Transparency unavailable for 'jpg', only for png.").
Proof.
  split; [|split].
  - apply (savefig_error_messages "map.gif" "upside-down" true true ∅).
    apply (bool_decide_unpack _). vm_compute. exact I.
  - apply (savefig_error_messages "map.gif" "landscape" true true ∅).
    + apply (bool_decide_unpack _). vm_compute. exact I.
    + apply (bool_decide_unpack _). vm_compute. exact I.
  - apply (savefig_error_messages "map.jpg" "landscape" true true ∅).
    + apply (bool_decide_unpack _). vm_compute. exact I.
    + apply (bool_decide_unpack _). vm_compute. exact I.
    + reflexivity.
    + apply (bool_decide_unpack _). vm_compute. exact I.
Defined.

Lemma savefig_duplicate_keyword_raises_witness :
  ∃ msg, fails_before_psconvert "map.png" "portrait" false true
           {[ "fmt" := PyStr "j" ]} (TypeError msg).
Proof.
  apply (savefig_duplicate_keyword_raises "map.png" "portrait" false true
           {[ "fmt" := PyStr "j" ]} "fmt").
  - apply (bool_decide_unpack _). vm_compute. exact I.
  - apply (bool_decide_unpack _). vm_compute. exact I.
  - discriminate.
  - apply (bool_decide_unpack _). vm_compute. exact I.
  - apply (bool_decide_unpack _). vm_compute. exact I.
Defined.

Lemma savefig_prefix_and_extension_witness :
  ∃ prefix,
    (<["prefix" := PyStr "maps/fig.1"]>
       (<["fmt" := PyStr "f"]>
          (<["crop" := PyBool true]>
             (<["portrait" := PyBool false]> (∅ : Kwargs))))) !! "prefix"
    = Some (PyStr prefix)
    ∧ prefix +:+ "." +:+ extension "maps/fig.1.pdf" = "maps/fig.1.pdf".
Proof.
  apply (savefig_prefix_and_extension "maps/fig.1.pdf" "landscape" false true ∅).
  apply (savefig_passes_exactly "maps/fig.1.pdf" "landscape" false true ∅ "f").
  - apply (bool_decide_unpack _). vm_compute. exact I.
  - vm_compute. reflexivity.
  - discriminate.
  - apply (bool_decide_unpack _). vm_compute. exact I.
Defined.

Lemma savefig_needs_extension_witness :
  fails_before_psconvert "figure" "portrait" false true ∅
    (AssertionError "Unknown extension '.'").
Proof.
  apply savefig_needs_extension.
  - apply (bool_decide_unpack _). vm_compute. exact I.
  - apply (bool_decide_unpack _). vm_compute. exact I.
Defined.


Lemma counting_names_no_sep n :
  os_path.sep ∉ chars (candidate_names Sample2.E_counting n).
Proof.
  unfold Sample2.E_counting, candidate_names. rewrite chars_str.
  intros [Heq _]%elem_of_replicate. discriminate.
Qed.

Lemma counting_names_inj i j :
  candidate_names Sample2.E_counting i = candidate_names Sample2.E_counting j →
  i = j.
Proof.
  unfold Sample2.E_counting, candidate_names. intros Heq.
  apply (f_equal chars) in Heq. rewrite !chars_str in Heq.
  apply (f_equal length) in Heq. rewrite !length_replicate in Heq. lia.
Qed.

Lemma figure_names_differ_when_draws_differ_witness :
  _name (mkFigure "gmt-python-a") ≠ _name (mkFigure "gmt-python-aa").
Proof.
  apply (figure_names_differ_when_draws_differ Sample2.E_counting
           Sample.s0 (mkState [] ∅ 1) (mkState [] ∅ 1) (mkState [] ∅ 2)).
  - apply counting_names_no_sep.
  - apply counting_names_inj.
  - vm_compute. reflexivity.
  - simpl. lia.
  - vm_compute. reflexivity.
Defined.

Lemma show_needs_IPython_witness :
  (show Sample2.H0 Sample.fig0 (PyInt 300) (PyInt 500) Sample.s0).2
  = (_png_preview Sample2.H0 Sample.fig0 (PyInt 300) true Sample.s0).2
  ∧ (∀ img, (show Sample2.H0 Sample.fig0 (PyInt 300) (PyInt 500) Sample.s0).1
            ≠ Ok img)
  ∧ (∀ png, (_png_preview Sample2.H0 Sample.fig0 (PyInt 300) true Sample.s0).1
            = Ok png →
       (show Sample2.H0 Sample.fig0 (PyInt 300) (PyInt 500) Sample.s0).1
       = Err (Raised (TypeError "'NoneType' object is not callable"))).
Proof. apply show_needs_IPython. reflexivity. Defined.
